(** * Moisture balance with the effective moisture penetration depth model

    A shallow embedding of [src/EnergyPlus/MoistureBalanceEMPDManager.cc]:
    the per-surface state arrays, [InitMoistureBalanceEMPD],
    [CalcMoistureBalanceEMPD], [UpdateMoistureBalanceEMPD] and
    [CloseMoistureBalanceEMPD], and, in [Module Input],
    [GetMoistureBalanceEMPDInput] and [ReportMoistureBalanceEMPD].

    [Real64] is IEEE 754 binary64, modelled by Rocq's primitive floats, whose
    [+ - * /] and comparisons are the ones of the C++ [double].  Integers
    ([int] surface, zone, construction and material numbers, all 1-based as
    in ObjexxFCL arrays) are [Z].  An access outside the bounds of an array,
    or to an array that is not allocated, has no defined result in the
    source; the model returns [None] there. *)

From Stdlib Require Import ZArith List Bool Floats Lia FinFun Sorted.
Import ListNotations.

Set Warnings "-inexact-float".

Module MoistureBalanceEMPDManager.

Local Open Scope Z_scope.

(** ** A small error monad on [option] *)

Definition bind {A B : Type} (m : option A) (f : A -> option B) : option B :=
  match m with
  | Some a => f a
  | None => None
  end.

Notation "x <- m ;; k" := (bind m (fun x => k))
  (at level 61, m at next level, right associativity).

(** ** One-based arrays *)

(** [A( i )] on an ObjexxFCL [Array1D] with lower bound 1. *)
Definition elem {A : Type} (l : list A) (i : Z) : option A :=
  if 1 <=? i then nth_error l (Z.to_nat (i - 1)) else None.

Fixpoint replace_nth {A : Type} (n : nat) (v : A) (l : list A) : list A :=
  match l, n with
  | [], _ => []
  | _ :: t, O => v :: t
  | h :: t, S k => h :: replace_nth k v t
  end.

Definition in_bounds {A : Type} (l : list A) (i : Z) : bool :=
  (1 <=? i) && (i <=? Z.of_nat (length l)).

(** [A( i ) = v]. *)
Definition assign_elem {A : Type} (l : list A) (i : Z) (v : A) : option (list A) :=
  if in_bounds l i then Some (replace_nth (Z.to_nat (i - 1)) v l) else None.

(** The index values of [for ( i = 1; i <= n; ++i )]. *)
Definition range (n : Z) : list Z := map Z.of_nat (seq 1 (Z.to_nat n)).

(** An [Array1D< Real64 >]: [None] while it is not allocated. *)
Definition Array1D : Type := option (list float).

Definition in_range (a : Array1D) (i : Z) : bool :=
  match a with
  | Some l => in_bounds l i
  | None => false
  end.

Definition size (a : Array1D) : option nat := option_map (@length float) a.

(** [A = v] for a scalar [v]: every element is assigned. *)
Definition fill (a : Array1D) (v : float) : Array1D :=
  option_map (map (fun _ => v)) a.

(** ** Data read by the module *)

(** The fields of [DataSurfaces::Surface( SurfNum )] that the routines read. *)
Record SurfaceData : Type := {
  HeatTransSurf : bool;
  Zone : Z;
  Construction : Z
}.

(** [DataHeatBalance::Construct( ConstrNum )]. *)
Record ConstructionData : Type := {
  TotLayers : Z;
  LayerPoint : list Z
}.

(** [DataHeatBalance::Material( MatNum )]: density and the properties of
    [MaterialProperty:MoisturePenetrationDepth:Settings]. *)
Record MaterialProperties : Type := {
  EMPDmu : float;
  MoistACoeff : float;
  MoistBCoeff : float;
  MoistCCoeff : float;
  MoistDCoeff : float;
  EMPDSurfaceDepth : float;
  EMPDDeepDepth : float;
  EMPDCoatingThickness : float;
  EMPDmuCoating : float;
  Density : float
}.

(** The per-surface arrays the module allocates: those of
    [DataMoistureBalanceEMPD] and the three reporting arrays of the module. *)
Inductive ArrayId : Type :=
| RVSurfaceOld | RVSurface | HeatFluxLatent
| RhoVapEMPD | WSurfEMPD | RHEMPD
| RVSurfLayer | RVSurfLayerOld | RVDeepLayer | RVdeepOld | RVwall
| HMSurfaceLayer | MassFluxSurfaceLayer | MassFluxDeepLayer | MassFluxZone.

Definition ArrayId_eq_dec (a b : ArrayId) : {a = b} + {a <> b}.
Proof. decide equality. Defined.

(** What the routines read and do not own.  [GetMoistureBalanceEMPDInput]
    stands for the input routine of the module: what it stores in
    [Material] is what [InputProcessor] ([GetNumObjectsFound],
    [GetObjectItem], [FindItemInList]) hands it from the input file, so its
    effect on the material table is taken as given; it ends the program
    ([ShowFatalError]) when it finds errors, which is [None] here.
    [KelvinConv] and [Lam] are constants of [DataGlobals] and
    [DataMoistureBalanceEMPD].  [Indeterminate] gives the content of
    freshly allocated storage. *)
Record Environment : Type := {
  BeginEnvrnFlag : bool;
  TotSurfaces : Z;
  Surface : list SurfaceData;
  Construct : list ConstructionData;
  ZoneAirHumRat : list float;
  OutBaroPress : float;
  HMassConvInFD : list float;
  RhoVaporAirIn : list float;
  TimeStepZone : float;
  KelvinConv : float;
  Lam : float;
  Indeterminate : ArrayId -> Z -> float;
  GetMoistureBalanceEMPDInput :
    list MaterialProperties -> option (list MaterialProperties)
}.

(** Functions of [<cmath>] and of [Psychrometrics]. *)
Record Externals : Type := {
  exp : float -> float;
  log : float -> float;
  pow : float -> float -> float;
  PsyRhovFnTdbWPb : float -> float -> float -> float;
  PsyRhFnTdbRhov : float -> float -> float;
  PsyRhovFnTdbRh : float -> float -> float;
  PsyPsatFnTemp : float -> float
}.

(** ** The state the module owns *)

(** The arrays, the material table ([GetMoistureBalanceEMPDInput] writes
    it), and the two function-local [static bool]s. *)
Record State : Type := {
  arrays : ArrayId -> Array1D;
  Material : list MaterialProperties;
  InitEnvrnFlag : bool;
  OneTimeFlag : bool
}.

Definition with_array (st : State) (id : ArrayId) (a : Array1D) : State :=
  {| arrays := fun id' => if ArrayId_eq_dec id id' then a else arrays st id';
     Material := Material st;
     InitEnvrnFlag := InitEnvrnFlag st;
     OneTimeFlag := OneTimeFlag st |}.

Definition with_Material (st : State) (m : list MaterialProperties) : State :=
  {| arrays := arrays st;
     Material := m;
     InitEnvrnFlag := InitEnvrnFlag st;
     OneTimeFlag := OneTimeFlag st |}.

Definition with_InitEnvrnFlag (st : State) (b : bool) : State :=
  {| arrays := arrays st;
     Material := Material st;
     InitEnvrnFlag := b;
     OneTimeFlag := OneTimeFlag st |}.

Definition with_OneTimeFlag (st : State) (b : bool) : State :=
  {| arrays := arrays st;
     Material := Material st;
     InitEnvrnFlag := InitEnvrnFlag st;
     OneTimeFlag := b |}.

(** Read [Id( i )]. *)
Definition get (st : State) (id : ArrayId) (i : Z) : option float :=
  l <- arrays st id ;; elem l i.

(** [Id( i ) = v]. *)
Definition set (id : ArrayId) (i : Z) (v : float) (st : State) : option State :=
  l <- arrays st id ;;
  l' <- assign_elem l i v ;;
  Some (with_array st id (Some l')).

(** A block of assignments [Id1( i ) = v1; Id2( i ) = v2; ...]. *)
Fixpoint assign_all (i : Z) (writes : list (ArrayId * float)) (st : State)
  : option State :=
  match writes with
  | [] => Some st
  | (id, v) :: rest => st' <- set id i v st ;; assign_all i rest st'
  end.

(** [Id.allocate( n )]. *)
Definition allocate (env : Environment) (n : Z) (st : State) (id : ArrayId) : State :=
  with_array st id (Some (map (Indeterminate env id) (range n))).

(** [Id.deallocate()]. *)
Definition deallocate (st : State) (id : ArrayId) : State :=
  with_array st id None.

(** A counted loop whose body may fail. *)
Fixpoint for_each (idx : list Z) (body : Z -> State -> option State) (st : State)
  : option State :=
  match idx with
  | [] => Some st
  | i :: rest => st' <- body i st ;; for_each rest body st'
  end.

(** ** InitMoistureBalanceEMPD *)

(** The arrays allocated when [InitEnvrnFlag] is set, in source order. *)
Definition allocated_by_Init : list ArrayId :=
  [RVSurfaceOld; RVSurface; HeatFluxLatent; RhoVapEMPD; WSurfEMPD; RHEMPD;
   RVSurfLayer; RVSurfLayerOld; RVDeepLayer; RVdeepOld; RVwall;
   HMSurfaceLayer; MassFluxSurfaceLayer; MassFluxDeepLayer; MassFluxZone].

(** The body of the loop over the surfaces. *)
Definition seed_surface (env : Environment) (SurfNum : Z) (st : State)
  : option State :=
  surface <- elem (Surface env) SurfNum ;;
  let ZoneNum := Zone surface in
  if negb (HeatTransSurf surface) then Some st
  else
    humrat <- elem (ZoneAirHumRat env) ZoneNum ;;
    if (humrat =? 0)%float then
      rho <- elem (RhoVaporAirIn env) SurfNum ;;
      assign_all SurfNum
        [(RVSurfaceOld, humrat);
         (RVSurface, humrat);
         (RVSurfLayer, rho);
         (RVSurfLayerOld, rho);
         (RVDeepLayer, rho);
         (RVdeepOld, rho);
         (RVwall, rho);
         (HMSurfaceLayer, 0.003%float);
         (MassFluxSurfaceLayer, 0.000%float);
         (MassFluxDeepLayer, 0.000%float);
         (MassFluxZone, 0.000%float)] st
    else
      rho <- elem (RhoVaporAirIn env) SurfNum ;;
      assign_all SurfNum
        [(RVSurfaceOld, humrat);
         (RVSurface, humrat);
         (RVSurfLayer, rho);
         (RVSurfLayerOld, rho);
         (RVDeepLayer, rho);
         (RVdeepOld, rho);
         (RVwall, rho);
         (HMSurfaceLayer, 0.0003%float);
         (MassFluxSurfaceLayer, 0.000%float);
         (MassFluxDeepLayer, 0.000%float);
         (MassFluxZone, 0.000%float)] st.

(** The report variables' initial values. *)
Definition init_report (st : State) : State :=
  let st := with_array st RhoVapEMPD (fill (arrays st RhoVapEMPD) 0.015%float) in
  let st := with_array st WSurfEMPD (fill (arrays st WSurfEMPD) 0.015%float) in
  let st := with_array st RHEMPD (fill (arrays st RHEMPD) 0.0%float) in
  with_array st HeatFluxLatent (fill (arrays st HeatFluxLatent) 0.0%float).

(** The loop of [SetupOutputVariable] calls that follows the input only
    registers the report variables with the output processor; it writes
    nothing the module owns and reads [Surface( Loop )] for the indices the
    seeding loop has read already. *)
Definition InitMoistureBalanceEMPD (env : Environment) (st : State)
  : option State :=
  let st :=
    if InitEnvrnFlag st
    then fold_left (allocate env (TotSurfaces env)) allocated_by_Init st
    else st in
  st <- for_each (range (TotSurfaces env)) (seed_surface env) st ;;
  if negb (InitEnvrnFlag st) then Some st
  else
    let st := init_report st in
    materials <- GetMoistureBalanceEMPDInput env (Material st) ;;
    let st := with_Material st materials in
    Some (if InitEnvrnFlag st then with_InitEnvrnFlag st false else st).

(** ** CalcMoistureBalanceEMPD *)

(** The local variables of the routine on the path of a moisture-active
    material, and the values it stores. *)
Record Locals : Type := {
  Taver : float;
  RVaver : float;
  RHaver : float;
  PVsat : float;
  PVsurf : float;
  TempSat : float;
  EMPDdiffusivity : float;
  dU_dRH : float;
  Rcoating : float;
  hm_surf_layer : float;
  hm_deep_layer : float;
  RSurfaceLayer : float;
  mass_flux_surf_layer : float;
  mass_flux_deep_layer : float;
  mass_flux_zone : float;
  RH_deep_layer_old : float;
  RH_surf_layer_old : float;
  RH_surf_layer : float;
  RH_deep_layer : float;
  rv_surf_layer' : float;
  rv_deep_layer' : float;
  PV_surf_layer : float;
  PV_deep_layer : float;
  rv_surface' : float;
  heat_flux_latent : float
}.

(** The references lines 452 to 465 bind, for those the routine reads:
    [surface] and the element [SurfNum] of eight arrays. *)
Record References : Type := {
  surface : SurfaceData;
  rv_surface : float;
  rv_surface_old : float;
  h_mass_conv_in_fd : float;
  rho_vapor_air_in : float;
  rv_surf_layer : float;
  rv_deep_layer : float;
  rv_deep_old : float;
  rv_surf_layer_old : float
}.

(** Lines 452 to 465.  Each reference needs its element to exist, also
    those the routine only writes. *)
Definition bind_references (env : Environment) (st : State) (SurfNum : Z)
  : option References :=
  surface <- elem (Surface env) SurfNum ;;
  rv_surface <- get st RVSurface SurfNum ;;
  rv_surface_old <- get st RVSurfaceOld SurfNum ;;
  h_mass_conv_in_fd <- elem (HMassConvInFD env) SurfNum ;;
  rho_vapor_air_in <- elem (RhoVaporAirIn env) SurfNum ;;
  _ <- get st MassFluxSurfaceLayer SurfNum ;;
  _ <- get st MassFluxDeepLayer SurfNum ;;
  _ <- get st MassFluxZone SurfNum ;;
  rv_surf_layer <- get st RVSurfLayer SurfNum ;;
  _ <- get st HMSurfaceLayer SurfNum ;;
  rv_deep_layer <- get st RVDeepLayer SurfNum ;;
  _ <- get st HeatFluxLatent SurfNum ;;
  rv_deep_old <- get st RVdeepOld SurfNum ;;
  rv_surf_layer_old <- get st RVSurfLayerOld SurfNum ;;
  Some {| surface := surface;
          rv_surface := rv_surface;
          rv_surface_old := rv_surface_old;
          h_mass_conv_in_fd := h_mass_conv_in_fd;
          rho_vapor_air_in := rho_vapor_air_in;
          rv_surf_layer := rv_surf_layer;
          rv_deep_layer := rv_deep_layer;
          rv_deep_old := rv_deep_old;
          rv_surf_layer_old := rv_surf_layer_old |}.

(** Lines 473 to 476: the material of the inside layer, the last of the
    construction. *)
Definition inside_material (env : Environment) (st : State) (surface : SurfaceData)
  : option MaterialProperties :=
  let ConstrNum := Construction surface in
  construct <- elem (Construct env) ConstrNum ;;
  MatNum <- elem (LayerPoint construct) (TotLayers construct) ;;
  elem (Material st) MatNum.

Section Engine.

Variable X : Externals.

(** Lines 482 to 551 of the source, operator by operator. *)
Definition balance (env : Environment) (material : MaterialProperties)
  (TempSurfIn : float) (r : References) : Locals :=
  (let Taver := TempSurfIn in
   let RVaver := (rv_surface r + rv_surface_old r) * 0.5 in
   let RHaver :=
     RVaver * 461.52 * (Taver + KelvinConv env)
     * exp X (-23.7093 + 4111.0 / (Taver + 237.7)) in
   let PVsat := PsyPsatFnTemp X Taver in
   let PVsurf := RHaver * exp X (23.7093 - 4111.0 / (Taver + 237.7)) in
   let TempSat := 4111.0 / (23.7093 - log X PVsurf) + 35.45 - KelvinConv env in
   let EMPDdiffusivity :=
     (2.0e-7 * pow X (Taver + KelvinConv env) 0.81 / OutBaroPress env)
     / EMPDmu material * 461.52 * (Taver + KelvinConv env) in
   let dU_dRH :=
     MoistACoeff material * MoistBCoeff material
     * pow X RHaver (MoistBCoeff material - 1)
     + MoistCCoeff material * MoistCCoeff material * MoistDCoeff material
       * pow X RHaver (MoistDCoeff material - 1) in
   let Rcoating :=
     if EMPDmuCoating material <=? 0.0 then 0
     else
       EMPDCoatingThickness material * EMPDmuCoating material * OutBaroPress env
       / (2.0e-7 * pow X (Taver + KelvinConv env) 0.81 * 461.52
          * (Taver + KelvinConv env)) in
   let hm_surf_layer :=
     1.0 / (0.5 * EMPDSurfaceDepth material / EMPDdiffusivity
            + 1.0 / h_mass_conv_in_fd r + Rcoating) in
   let hm_deep_layer :=
     if EMPDDeepDepth material <=? 0.0 then 0
     else 2.0 * EMPDdiffusivity
          / (EMPDDeepDepth material + EMPDSurfaceDepth material) in
   let RSurfaceLayer := 1.0 / hm_surf_layer - 1.0 / h_mass_conv_in_fd r - Rcoating in
   let mass_flux_surf_layer :=
     hm_surf_layer * (rv_surf_layer r - rho_vapor_air_in r)
     + hm_deep_layer * (rv_surf_layer r - rv_deep_layer r) in
   let mass_flux_deep_layer := hm_deep_layer * (rv_surf_layer r - rv_deep_layer r) in
   let mass_flux_zone := hm_surf_layer * (rv_surf_layer r - rho_vapor_air_in r) in
   let RH_deep_layer_old := PsyRhFnTdbRhov X Taver (rv_deep_old r) in
   let RH_surf_layer_old := PsyRhFnTdbRhov X Taver (rv_surf_layer_old r) in
   let RH_surf_layer :=
     RH_surf_layer_old
     + TimeStepZone env * 3600.0
       * (- mass_flux_surf_layer
          / (Density material * EMPDSurfaceDepth material * dU_dRH)) in
   let RH_deep_layer :=
     if EMPDDeepDepth material <=? 0.0 then RH_deep_layer_old
     else
       RH_deep_layer_old
       + TimeStepZone env * 3600.0 * mass_flux_deep_layer
         / (Density material * EMPDDeepDepth material * dU_dRH) in
   let rv_surf_layer' := PsyRhovFnTdbRh X Taver RH_surf_layer in
   let rv_deep_layer' := PsyRhovFnTdbRh X Taver RH_deep_layer in
   let PV_surf_layer := RH_surf_layer * exp X (23.7093 - 4111.0 / (Taver + 237.7)) in
   let PV_deep_layer := RH_deep_layer * exp X (23.7093 - 4111.0 / (Taver + 237.7)) in
   let rv_surface' := rv_surf_layer' - mass_flux_zone * RSurfaceLayer in
   let heat_flux_latent := mass_flux_zone * Lam env in
   {| Taver := Taver; RVaver := RVaver; RHaver := RHaver; PVsat := PVsat;
      PVsurf := PVsurf; TempSat := TempSat; EMPDdiffusivity := EMPDdiffusivity;
      dU_dRH := dU_dRH; Rcoating := Rcoating; hm_surf_layer := hm_surf_layer;
      hm_deep_layer := hm_deep_layer; RSurfaceLayer := RSurfaceLayer;
      mass_flux_surf_layer := mass_flux_surf_layer;
      mass_flux_deep_layer := mass_flux_deep_layer;
      mass_flux_zone := mass_flux_zone;
      RH_deep_layer_old := RH_deep_layer_old;
      RH_surf_layer_old := RH_surf_layer_old;
      RH_surf_layer := RH_surf_layer; RH_deep_layer := RH_deep_layer;
      rv_surf_layer' := rv_surf_layer'; rv_deep_layer' := rv_deep_layer';
      PV_surf_layer := PV_surf_layer; PV_deep_layer := PV_deep_layer;
      rv_surface' := rv_surface'; heat_flux_latent := heat_flux_latent |})%float.

(** The values the moisture-active path stores, in source order. *)
Definition stores (env : Environment) (v : Locals) : list (ArrayId * float) :=
  [(HMSurfaceLayer, hm_surf_layer v);
   (MassFluxSurfaceLayer, mass_flux_surf_layer v);
   (MassFluxDeepLayer, mass_flux_deep_layer v);
   (MassFluxZone, mass_flux_zone v);
   (RVSurfLayer, rv_surf_layer' v);
   (RVDeepLayer, rv_deep_layer' v);
   (RVSurface, rv_surface' v);
   (HeatFluxLatent, heat_flux_latent v);
   (RhoVapEMPD, rv_surf_layer' v);
   (RHEMPD, (RH_surf_layer v * 100.0)%float);
   (WSurfEMPD, (0.622 * PV_surf_layer v / (OutBaroPress env - PV_surf_layer v))%float)].

(** Lines 443 to 450: the reset on a new environment and its latch. *)
Definition reset_coupling (env : Environment) (st : State) : option State :=
  st <- (if BeginEnvrnFlag env && OneTimeFlag st
         then st' <- InitMoistureBalanceEMPD env st ;;
              Some (with_OneTimeFlag st' false)
         else Some st) ;;
  Some (if negb (BeginEnvrnFlag env) then with_OneTimeFlag st true else st).

(** Line 452 to the end.  The references name elements of distinct
    arrays; [TempSat] is the caller's variable, written on the
    moisture-active path only. *)
Definition CalcBody (env : Environment) (SurfNum : Z)
  (TempSurfIn TempZone TempSat0 : float) (st : State) : option (State * float) :=
  r <- bind_references env st SurfNum ;;
  st <- set HeatFluxLatent SurfNum 0.0%float st ;;
  if negb (HeatTransSurf (surface r)) then Some (st, TempSat0)
  else
    material <- inside_material env st (surface r) ;;
    if (EMPDmu material <=? 0.0)%float then
      humrat <- elem (ZoneAirHumRat env) (Zone (surface r)) ;;
      st <- set RVSurface SurfNum
              (PsyRhovFnTdbWPb X TempZone humrat (OutBaroPress env)) st ;;
      Some (st, TempSat0)
    else
      let v := balance env material TempSurfIn r in
      st <- assign_all SurfNum (stores env v) st ;;
      Some (st, TempSat v).

Definition CalcMoistureBalanceEMPD (env : Environment) (SurfNum : Z)
  (TempSurfIn TempZone TempSat0 : float) (st : State) : option (State * float) :=
  st <- reset_coupling env st ;;
  CalcBody env SurfNum TempSurfIn TempZone TempSat0 st.

End Engine.

(** ** CloseMoistureBalanceEMPD and UpdateMoistureBalanceEMPD *)

Definition deallocated_by_Close : list ArrayId :=
  [RVSurfaceOld; RVSurface; HeatFluxLatent; RVSurfLayer; RVSurfLayerOld;
   RVDeepLayer; RVdeepOld].

Definition CloseMoistureBalanceEMPD (st : State) : State :=
  fold_left deallocate deallocated_by_Close st.

Definition UpdateMoistureBalanceEMPD (SurfNum : Z) (st : State) : option State :=
  v <- get st RVSurface SurfNum ;;
  st <- set RVSurfaceOld SurfNum v st ;;
  v <- get st RVDeepLayer SurfNum ;;
  st <- set RVdeepOld SurfNum v st ;;
  v <- get st RVSurfLayer SurfNum ;;
  set RVSurfLayerOld SurfNum v st.


(** ** Preconditions of the routines, as decidable checks *)

(** Every array of the module is allocated with room for [n] surfaces. *)
Definition allocated_for (st : State) (n : Z) : bool :=
  forallb (fun id =>
             match arrays st id with
             | Some l => (n <=? Z.of_nat (length l))
             | None => false
             end) allocated_by_Init.

(** The seeding loop finds what it reads: every surface, and for a
    heat-transfer surface its zone's humidity ratio and its incoming vapor
    density. *)
Definition seeding_inputs_ok (env : Environment) : bool :=
  forallb (fun i =>
             match elem (Surface env) i with
             | Some s =>
                 negb (HeatTransSurf s)
                 || (in_bounds (ZoneAirHumRat env) (Zone s)
                     && in_bounds (RhoVaporAirIn env) i)
             | None => false
             end) (range (TotSurfaces env)).

(** The arrays whose element [SurfNum] the calculation binds a reference to
    on entry. *)
Definition bound_on_entry : list ArrayId :=
  [RVSurface; RVSurfaceOld; MassFluxSurfaceLayer; MassFluxDeepLayer;
   MassFluxZone; RVSurfLayer; HMSurfaceLayer; RVDeepLayer; HeatFluxLatent;
   RVdeepOld; RVSurfLayerOld].

(** The arrays only [InitMoistureBalanceEMPD] and
    [UpdateMoistureBalanceEMPD] write. *)
Definition kept_by_Calc : list ArrayId :=
  [RVSurfaceOld; RVSurfLayerOld; RVdeepOld; RVwall].

(** The report arrays, written at the end of the moisture-active path. *)
Definition report_bound (st : State) (SurfNum : Z) : bool :=
  forallb (fun id => in_range (arrays st id) SurfNum) [RhoVapEMPD; RHEMPD; WSurfEMPD].

(** [InitMoistureBalanceEMPD] finds what it needs: the inputs of the
    seeding loop and, on the first use, an input without errors, later the
    arrays of the first use. *)
Definition Init_ready (env : Environment) (st : State) : bool :=
  seeding_inputs_ok env
  && (if InitEnvrnFlag st
      then match GetMoistureBalanceEMPDInput env (Material st) with
           | Some _ => true
           | None => false
           end
      else allocated_for st (TotSurfaces env)).

(** The value [init_report] gives the elements of an array, if any. *)
Definition report_default (id : ArrayId) : option float :=
  match id with
  | RhoVapEMPD => Some 0.015%float
  | WSurfEMPD => Some 0.015%float
  | RHEMPD => Some 0.0%float
  | HeatFluxLatent => Some 0.0%float
  | _ => None
  end.

(** The arrays the seeding loop writes. *)
Definition seeded_by_Init : list ArrayId :=
  [RVSurfaceOld; RVSurface; RVSurfLayer; RVSurfLayerOld; RVDeepLayer;
   RVdeepOld; RVwall; HMSurfaceLayer; MassFluxSurfaceLayer;
   MassFluxDeepLayer; MassFluxZone].

(** Element [SurfNum] of the seeded arrays holds the seed for a zone
    humidity ratio [humrat] and an incoming vapor density [rho]. *)
Definition seeded (st : State) (SurfNum : Z) (humrat rho : float) : Prop :=
  get st RVSurfaceOld SurfNum = Some humrat
  /\ get st RVSurface SurfNum = Some humrat
  /\ get st RVSurfLayer SurfNum = Some rho
  /\ get st RVSurfLayerOld SurfNum = Some rho
  /\ get st RVDeepLayer SurfNum = Some rho
  /\ get st RVdeepOld SurfNum = Some rho
  /\ get st RVwall SurfNum = Some rho
  /\ get st HMSurfaceLayer SurfNum
     = Some (if (humrat =? 0)%float then 0.003%float else 0.0003%float)
  /\ get st MassFluxSurfaceLayer SurfNum = Some 0%float
  /\ get st MassFluxDeepLayer SurfNum = Some 0%float
  /\ get st MassFluxZone SurfNum = Some 0%float.

(** ** Sequences of calls *)

Record Call : Type := {
  call_env : Environment;
  call_SurfNum : Z;
  call_TempSurfIn : float;
  call_TempZone : float
}.

Section Runs.

Variable X : Externals.

(** Successive calls of [CalcMoistureBalanceEMPD], the caller's [TempSat]
    carried from one to the next. *)
Fixpoint run (calls : list Call) (st : State) (TempSat0 : float)
  : option (State * float) :=
  match calls with
  | [] => Some (st, TempSat0)
  | c :: rest =>
      r <- CalcMoistureBalanceEMPD X (call_env c) (call_SurfNum c)
             (call_TempSurfIn c) (call_TempZone c) TempSat0 st ;;
      run rest (fst r) (snd r)
  end.


End Runs.

(** ** The slope of the sorption curve, as the specification words it *)

(** [a b RH^(b-1) + c^2 d RH^(d-1)], the powers taken by [pow]. *)
Definition sorption_slope_spec (X : Externals) (a b c d RH : float) : float :=
  (a * b * pow X RH (b - 1) + (c * c) * d * pow X RH (d - 1))%float.

(** ** A concrete instance for examples *)

(** Series approximations of [exp] and [log], [pow] from them with the
    values C gives it at zero, and psychrometric conversions on the
    empirical saturation curve the module itself uses.  The theorems hold
    for every [Externals]; only the examples run on this instance. *)
Module Sample.

Local Open Scope float_scope.

Definition exp_taylor (y : float) : float :=
  1 + y * (1 + y / 2 * (1 + y / 3 * (1 + y / 4 * (1 + y / 5 * (1 + y / 6 *
  (1 + y / 7 * (1 + y / 8 * (1 + y / 9 * (1 + y / 10 * (1 + y / 11 *
  (1 + y / 12 * (1 + y / 13 * (1 + y / 14))))))))))))).

Fixpoint square_n (n : nat) (x : float) : float :=
  match n with
  | O => x
  | S k => square_n k (x * x)
  end.

Definition exp (x : float) : float :=
  if is_nan x then nan
  else if 710 <? x then infinity
  else if x <? -746 then 0
  else square_n 10 (exp_taylor (x / 1024)).

Fixpoint atanh_series (n : nat) (z z2 k : float) : float :=
  match n with
  | O => 0
  | S m => z / k + atanh_series m (z * z2) z2 (k + 2)
  end.

Definition of_Z (e : Z) : float :=
  match e with
  | Z0 => 0
  | Zpos p => of_uint63 (Uint63.of_Z (Zpos p))
  | Zneg p => - of_uint63 (Uint63.of_Z (Zpos p))
  end.

Definition log (x : float) : float :=
  if is_nan x then nan
  else if x <? 0 then nan
  else if x =? 0 then neg_infinity
  else if is_infinity x then infinity
  else let (m, e) := Z.frexp x in
       let z := (m - 1) / (m + 1) in
       of_Z e * 0.6931471805599453 + 2 * atanh_series 30 z (z * z) 1.

Definition pow (x y : float) : float :=
  if y =? 0 then 1
  else if is_nan x || is_nan y then nan
  else if x =? 0 then (if 0 <? y then 0 else infinity)
  else if x <? 0 then nan
  else exp (y * log x).

Definition externals : Externals :=
  {| MoistureBalanceEMPDManager.exp := exp;
     MoistureBalanceEMPDManager.log := log;
     MoistureBalanceEMPDManager.pow := pow;
     PsyRhovFnTdbWPb := fun Tdb W PB =>
       W * PB / (461.52 * (Tdb + 273.15) * (W + 0.62198));
     PsyRhFnTdbRhov := fun Tdb Rhovapor =>
       Rhovapor * 461.52 * (Tdb + 273.15) * exp (-23.7093 + 4111.0 / (Tdb + 237.7));
     PsyRhovFnTdbRh := fun Tdb RH =>
       RH / (461.52 * (Tdb + 273.15)) * exp (23.7093 - 4111.0 / (Tdb + 237.7));
     PsyPsatFnTemp := fun Tdb => exp (23.7093 - 4111.0 / (Tdb + 237.7)) |}.

(** The material of the end-to-end scenario of the specification
    (vapor resistance factor 200, no deep layer, no coating). *)
Definition gypsum : MaterialProperties :=
  {| EMPDmu := 200; MoistACoeff := 0.02; MoistBCoeff := 1.5;
     MoistCCoeff := 0.01; MoistDCoeff := 3; EMPDSurfaceDepth := 0.005;
     EMPDDeepDepth := 0; EMPDCoatingThickness := 0; EMPDmuCoating := 0;
     Density := 800 |}.

(** The same material with a deep layer. *)
Definition gypsum_deep : MaterialProperties :=
  {| EMPDmu := 200; MoistACoeff := 0.02; MoistBCoeff := 1.5;
     MoistCCoeff := 0.01; MoistDCoeff := 3; EMPDSurfaceDepth := 0.005;
     EMPDDeepDepth := 0.02; EMPDCoatingThickness := 0; EMPDmuCoating := 0;
     Density := 800 |}.

(** A material without moisture properties. *)
Definition inert : MaterialProperties :=
  {| EMPDmu := 0; MoistACoeff := 0; MoistBCoeff := 0;
     MoistCCoeff := 0; MoistDCoeff := 0; EMPDSurfaceDepth := 0;
     EMPDDeepDepth := 0; EMPDCoatingThickness := 0; EMPDmuCoating := 0;
     Density := 800 |}.

Definition materials : list MaterialProperties := [gypsum; inert; gypsum_deep].

(** Three surfaces in zone 1: a wall of [gypsum], a wall of [inert], and a
    surface that transfers no heat; a fourth wall of [gypsum_deep]. *)
Definition surfaces : list SurfaceData :=
  [ {| HeatTransSurf := true; Zone := 1; Construction := 1 |};
    {| HeatTransSurf := true; Zone := 1; Construction := 2 |};
    {| HeatTransSurf := false; Zone := 1; Construction := 1 |};
    {| HeatTransSurf := true; Zone := 1; Construction := 3 |} ].

Definition constructions : list ConstructionData :=
  [ {| TotLayers := 1; LayerPoint := [1%Z] |};
    {| TotLayers := 1; LayerPoint := [2%Z] |};
    {| TotLayers := 1; LayerPoint := [3%Z] |} ].

(** Zone humidity ratio [W], incoming vapor density [rho] at every surface,
    standard pressure, a 15 minute timestep. *)
Definition environment (begin_envrn : bool) (W rho : float) : Environment :=
  {| BeginEnvrnFlag := begin_envrn;
     TotSurfaces := 4;
     Surface := surfaces;
     Construct := constructions;
     ZoneAirHumRat := [W];
     OutBaroPress := 101325;
     HMassConvInFD := [0.003; 0.003; 0.003; 0.003];
     RhoVaporAirIn := [rho; rho; rho; rho];
     TimeStepZone := 0.25;
     KelvinConv := 273.15;
     Lam := 2500000;
     Indeterminate := fun _ _ => 0;
     GetMoistureBalanceEMPDInput := fun m => Some m |}.

(** Before the first call: nothing allocated, both latches armed. *)
Definition initial : State :=
  {| arrays := fun _ => None;
     Material := materials;
     InitEnvrnFlag := true;
     OneTimeFlag := true |}.

(** After the first use: every array holds [v] for each surface. *)
Definition uniform (v : float) (one_time : bool) : State :=
  {| arrays := fun _ => Some [v; v; v; v];
     Material := materials;
     InitEnvrnFlag := false;
     OneTimeFlag := one_time |}.

(** The result of a run that is known to return. *)
Definition returned (r : option (State * float)) : State * float :=
  match r with
  | Some p => p
  | None => (initial, 0)
  end.

(** The first call of a run: the wall of [gypsum], new environment. *)
Definition first_call : State * float :=
  returned (CalcMoistureBalanceEMPD externals (environment true 0.008 0.0095)
              1 22 24 0 initial).

(** The arrays of [uniform] with another value in one of them. *)
Definition uniform_but (v : float) (id : ArrayId) (w : float) : State :=
  with_array (uniform v true) id (Some [w; w; w; w]).

End Sample.


(** ** GetMoistureBalanceEMPDInput and ReportMoistureBalanceEMPD *)

(** A counted loop over any state; the body may fail. *)
Fixpoint for_each_in {S : Type} (idx : list Z) (body : Z -> S -> option S) (s : S)
  : option S :=
  match idx with
  | [] => Some s
  | i :: rest => s' <- body i s ;; for_each_in rest body s'
  end.

(** The index values of [for ( i = a; i <= b; ++i )]. *)
Definition interval (a b : Z) : list Z :=
  map (fun k => a + Z.of_nat k) (seq 0 (Z.to_nat (b - a + 1))).

(** The input routine as the source has it.  What [InputProcessor] hands
    it is data: the objects of
    [MaterialProperty:MoisturePenetrationDepth:Settings] in file order,
    each with the index [FindItemInList] finds for its material name (0
    when there is none) and its nine numeric fields.  The messages
    ([ShowSevereError], [ShowContinueError], [ShowMessage], with their
    counter [ErrCount]) are output and are left out; [ErrorsFound] is
    kept. *)
Module Input.

(** The fields of [Material( MatNum )] that only the input and the report
    read, at the indices of [Material]. *)
Record MaterialKind : Type := {
  Group : Z;
  ROnly : bool;
  EMPDMaterialProps : bool
}.

(** The fields of [Surface( SurfNum )] that only the input reads, at the
    indices of [Surface]. *)
Record SurfaceKind : Type := {
  Class : Z;
  HeatTransferAlgorithm : Z;
  ExtBoundCond : Z
}.

(** One object: [MaterNum] is [FindItemInList( MaterialNames( 1 ),
    Material )], [MaterialProps] the array [GetObjectItem] fills, of
    dimension 9. *)
Record ObjectItem : Type := {
  MaterNum : Z;
  MaterialProps : Z -> float
}.

(** What the routine reads besides [Surface], [Construct] and
    [TotSurfaces].  [TypeIsWindow] is the field of [Construct( ConstrNum )]
    the report reads; [DoReport] is what [ScanForReports] answers;
    [RegularMaterial], [SurfaceClass_Window] and [HeatTransferModel_EMPD]
    are constants of [DataHeatBalance] and [DataSurfaces]. *)
Record InputData : Type := {
  Objects : list ObjectItem;
  MaterialKinds : list MaterialKind;
  SurfaceKinds : list SurfaceKind;
  TypeIsWindow : list bool;
  NumOfZones : Z;
  TotConstructs : Z;
  DoReport : bool;
  RegularMaterial : Z;
  SurfaceClass_Window : Z;
  HeatTransferModel_EMPD : Z
}.

(** Lines 192 to 200: the nine properties stored in the material. *)
Definition with_properties (material : MaterialProperties) (props : Z -> float)
  : MaterialProperties :=
  {| EMPDmu := props 1;
     MoistACoeff := props 2;
     MoistBCoeff := props 3;
     MoistCCoeff := props 4;
     MoistDCoeff := props 5;
     EMPDSurfaceDepth := props 6;
     EMPDDeepDepth := props 7;
     EMPDCoatingThickness := props 8;
     EMPDmuCoating := props 9;
     Density := Density material |}.

Definition with_EMPDDeepDepth (material : MaterialProperties) (depth : float)
  : MaterialProperties :=
  {| EMPDmu := EMPDmu material;
     MoistACoeff := MoistACoeff material;
     MoistBCoeff := MoistBCoeff material;
     MoistCCoeff := MoistCCoeff material;
     MoistDCoeff := MoistDCoeff material;
     EMPDSurfaceDepth := EMPDSurfaceDepth material;
     EMPDDeepDepth := depth;
     EMPDCoatingThickness := EMPDCoatingThickness material;
     EMPDmuCoating := EMPDmuCoating material;
     Density := Density material |}.

(** Lines 202 to 207: a deep-layer depth that is neither zero nor above
    the surface-layer depth is set to zero. *)
Definition check_depths (material : MaterialProperties) : MaterialProperties :=
  if ((EMPDDeepDepth material <=? EMPDSurfaceDepth material)%float
      && negb (EMPDDeepDepth material =? 0.0)%float)%bool
  then with_EMPDDeepDepth material 0.0%float
  else material.

(** The body of the loop over the objects, lines 162 to 207. *)
Definition load_object (d : InputData) (obj : ObjectItem)
  (materials : list MaterialProperties) (ErrorsFound : bool)
  : option (list MaterialProperties * bool) :=
  if MaterNum obj =? 0 then Some (materials, true)
  else
    kind <- elem (MaterialKinds d) (MaterNum obj) ;;
    let ErrorsFound :=
      if ((Group kind =? RegularMaterial d)
          && (0.0 <? MaterialProps obj 1)%float)%bool
      then (if ROnly kind then true else ErrorsFound)
      else ErrorsFound in
    let ErrorsFound :=
      if negb (Group kind =? RegularMaterial d) then true else ErrorsFound in
    material <- elem materials (MaterNum obj) ;;
    let material := check_depths (with_properties material (MaterialProps obj)) in
    materials <- assign_elem materials (MaterNum obj) material ;;
    Some (materials, ErrorsFound).

(** The loop over the objects, [Loop] from 1 to [EMPDMat]. *)
Fixpoint load_objects (d : InputData) (objs : list ObjectItem)
  (materials : list MaterialProperties) (ErrorsFound : bool)
  : option (list MaterialProperties * bool) :=
  match objs with
  | [] => Some (materials, ErrorsFound)
  | obj :: rest =>
      r <- load_object d obj materials ErrorsFound ;;
      load_objects d rest (fst r) (snd r)
  end.

(** Lines 239 to 246: the layers between the outside and the inside one. *)
Definition check_middle_layers (d : InputData) (construct : ConstructionData)
  (ErrorsFound : bool) : option bool :=
  for_each_in (interval 2 (TotLayers construct - 1))
    (fun Layer ErrorsFound =>
       MatNum <- elem (LayerPoint construct) Layer ;;
       kind <- elem (MaterialKinds d) MatNum ;;
       Some (if EMPDMaterialProps kind then true else ErrorsFound))
    ErrorsFound.

(** The body of the loop over the surfaces, lines 213 to 247; the state is
    [EMPDzone] and [ErrorsFound]. *)
Definition check_surface (env : Environment) (d : InputData)
  (materials : list MaterialProperties) (SurfNum : Z) (s : list bool * bool)
  : option (list bool * bool) :=
  let EMPDzone := fst s in
  let ErrorsFound := snd s in
  surface <- elem (Surface env) SurfNum ;;
  skind <- elem (SurfaceKinds d) SurfNum ;;
  if negb (HeatTransSurf surface) || (Class skind =? SurfaceClass_Window d)
  then Some s
  else if negb (HeatTransferAlgorithm skind =? HeatTransferModel_EMPD d)
  then Some s
  else
    let ConstrNum := Construction surface in
    construct <- elem (Construct env) ConstrNum ;;
    MatNum <- elem (LayerPoint construct) (TotLayers construct) ;;
    material <- elem materials MatNum ;;
    EMPDzone <-
      (if ((0.0 <? EMPDmu material)%float && (0 <? Zone surface))%bool
       then assign_elem EMPDzone (Zone surface) true
       else Some EMPDzone) ;;
    if TotLayers construct =? 1 then Some (EMPDzone, ErrorsFound)
    else
      outside <- elem (LayerPoint construct) 1 ;;
      okind <- elem (MaterialKinds d) outside ;;
      let ErrorsFound :=
        if EMPDMaterialProps okind && (ExtBoundCond skind <=? 0)
        then true else ErrorsFound in
      ErrorsFound <- check_middle_layers d construct ErrorsFound ;;
      Some (EMPDzone, ErrorsFound).

(** Lines 250 to 256: a zone left without a flag is an error. *)
Definition check_zones (d : InputData) (EMPDzone : list bool) (ErrorsFound : bool)
  : option bool :=
  for_each_in (range (NumOfZones d))
    (fun Loop ErrorsFound =>
       flag <- elem EMPDzone Loop ;;
       Some (if negb flag then true else ErrorsFound))
    ErrorsFound.

(** [ReportMoistureBalanceEMPD]: the construction numbers whose line is
    written, in order; the text of the lines is the output processor's. *)
Definition ReportMoistureBalanceEMPD (env : Environment) (d : InputData)
  (materials : list MaterialProperties) : option (list Z) :=
  if negb (DoReport d) then Some []
  else
    for_each_in (range (TotConstructs d))
      (fun ConstrNum written =>
         window <- elem (TypeIsWindow d) ConstrNum ;;
         if window then Some written
         else
           construct <- elem (Construct env) ConstrNum ;;
           MatNum <- elem (LayerPoint construct) (TotLayers construct) ;;
           kind <- elem (MaterialKinds d) MatNum ;;
           _ <- elem materials MatNum ;;
           Some (if EMPDMaterialProps kind then written ++ [ConstrNum]
                 else written))
      [].

(** The routine up to its last statement: the material table and
    [ErrorsFound] it ends with.  [ErrorsFound] is a [static bool]; it
    enters with the value the last call left, [false] at the first. *)
Definition input_pass (env : Environment) (d : InputData)
  (materials : list MaterialProperties) (ErrorsFound : bool)
  : option (list MaterialProperties * bool) :=
  let EMPDMat := Z.of_nat (length (Objects d)) in
  let ErrorsFound := if EMPDMat =? 0 then true else ErrorsFound in
  loaded <- load_objects d (Objects d) materials ErrorsFound ;;
  let materials := fst loaded in
  let ErrorsFound := snd loaded in
  checked <- for_each_in (range (TotSurfaces env))
               (check_surface env d materials)
               (repeat false (Z.to_nat (NumOfZones d)), ErrorsFound) ;;
  let EMPDzone := fst checked in
  let ErrorsFound := snd checked in
  ErrorsFound <- check_zones d EMPDzone ErrorsFound ;;
  _ <- ReportMoistureBalanceEMPD env d materials ;;
  Some (materials, ErrorsFound).

(** The routine on its one call, from [InitMoistureBalanceEMPD]: with
    errors found it ends the program ([ShowFatalError]). *)
Definition GetMoistureBalanceEMPDInput (env : Environment) (d : InputData)
  (materials : list MaterialProperties) : option (list MaterialProperties) :=
  r <- input_pass env d materials false ;;
  if snd r then None else Some (fst r).

(** An environment whose input routine is the one above. *)
Definition with_input (env : Environment) (d : InputData) : Environment :=
  {| BeginEnvrnFlag := BeginEnvrnFlag env;
     TotSurfaces := TotSurfaces env;
     Surface := Surface env;
     Construct := Construct env;
     ZoneAirHumRat := ZoneAirHumRat env;
     OutBaroPress := OutBaroPress env;
     HMassConvInFD := HMassConvInFD env;
     RhoVaporAirIn := RhoVaporAirIn env;
     TimeStepZone := TimeStepZone env;
     KelvinConv := KelvinConv env;
     Lam := Lam env;
     Indeterminate := Indeterminate env;
     MoistureBalanceEMPDManager.GetMoistureBalanceEMPDInput :=
       GetMoistureBalanceEMPDInput env d |}.

(** What lines 202 to 207 establish: the deep-layer depth is not at once
    at most the surface-layer depth and different from zero. *)
Definition depths_consistent (material : MaterialProperties) : bool :=
  negb ((EMPDDeepDepth material <=? EMPDSurfaceDepth material)%float
        && negb (EMPDDeepDepth material =? 0.0)%float).

(** A surface the loop of lines 212 to 248 does not skip: it transfers
    heat, is no window and uses the moisture penetration depth model. *)
Definition checked_surface (env : Environment) (d : InputData) (SurfNum : Z)
  (surface : SurfaceData) (skind : SurfaceKind) : Prop :=
  elem (Surface env) SurfNum = Some surface
  /\ elem (SurfaceKinds d) SurfNum = Some skind
  /\ HeatTransSurf surface = true
  /\ Class skind <> SurfaceClass_Window d
  /\ HeatTransferAlgorithm skind = HeatTransferModel_EMPD d.

(** An object the loop of lines 159 to 208 finds no error in: its material
    exists, is a regular material, and has properties of its own (is not
    given by its resistance only) when the vapor resistance factor is
    positive. *)
Definition accepted_object (d : InputData) (obj : ObjectItem) : Prop :=
  MaterNum obj <> 0
  /\ exists kind,
       elem (MaterialKinds d) (MaterNum obj) = Some kind
       /\ Group kind = RegularMaterial d
       /\ ((0.0 <? MaterialProps obj 1)%float = true -> ROnly kind = false).

(** Surface [SurfNum] gives zone [z] its flag in [EMPDzone]: it is a
    checked surface of the zone whose inside material has a positive
    vapor resistance factor in [materials]. *)
Definition flags_zone (env : Environment) (d : InputData)
  (materials : list MaterialProperties) (z SurfNum : Z) : Prop :=
  exists surface skind construct MatNum material,
    checked_surface env d SurfNum surface skind
    /\ Zone surface = z
    /\ elem (Construct env) (Construction surface) = Some construct
    /\ elem (LayerPoint construct) (TotLayers construct) = Some MatNum
    /\ elem materials MatNum = Some material
    /\ (0.0 <? EMPDmu material)%float = true.

(** No error of lines 233 to 246: the outside layer of the construction
    carries moisture properties only on a surface with a positive
    [ExtBoundCond], and no layer between the outside and the inside one
    carries any. *)
Definition layers_placed (d : InputData) (skind : SurfaceKind)
  (construct : ConstructionData) : Prop :=
  (exists outside okind,
     elem (LayerPoint construct) 1 = Some outside
     /\ elem (MaterialKinds d) outside = Some okind
     /\ (EMPDMaterialProps okind = true -> 0 < ExtBoundCond skind))
  /\ forall Layer, 2 <= Layer <= TotLayers construct - 1 ->
       exists MatNum kind,
         elem (LayerPoint construct) Layer = Some MatNum
         /\ elem (MaterialKinds d) MatNum = Some kind
         /\ EMPDMaterialProps kind = false.

(** Construction [ConstrNum] gets a line of the report: it is no window
    and the material of its inside layer carries moisture properties. *)
Definition reported (env : Environment) (d : InputData) (ConstrNum : Z) : Prop :=
  elem (TypeIsWindow d) ConstrNum = Some false
  /\ exists construct MatNum kind,
       elem (Construct env) ConstrNum = Some construct
       /\ elem (LayerPoint construct) (TotLayers construct) = Some MatNum
       /\ elem (MaterialKinds d) MatNum = Some kind
       /\ EMPDMaterialProps kind = true.

(** The nine fields of an object, from a list. *)
Definition props_of (l : list float) : Z -> float :=
  fun k => match elem l k with
           | Some v => v
           | None => 0%float
           end.

(** The materials of the sample model before the input: densities only. *)
Definition bare : list MaterialProperties :=
  [Sample.inert; Sample.inert; Sample.inert].

(** The input of the sample model: the properties of [Sample.gypsum] for
    material 1 and those of [Sample.gypsum_deep] for material 3. *)
Definition sample_objects : list ObjectItem :=
  [ {| MaterNum := 1;
       MaterialProps := props_of [200; 0.02; 1.5; 0.01; 3; 0.005; 0; 0; 0]%float |};
    {| MaterNum := 3;
       MaterialProps := props_of [200; 0.02; 1.5; 0.01; 3; 0.005; 0.02; 0; 0]%float |} ].

Definition sample (objs : list ObjectItem) : InputData :=
  {| Objects := objs;
     MaterialKinds :=
       [ {| Group := 0; ROnly := false; EMPDMaterialProps := true |};
         {| Group := 0; ROnly := false; EMPDMaterialProps := false |};
         {| Group := 0; ROnly := false; EMPDMaterialProps := true |} ];
     SurfaceKinds :=
       [ {| Class := 1; HeatTransferAlgorithm := 5; ExtBoundCond := 0 |};
         {| Class := 1; HeatTransferAlgorithm := 5; ExtBoundCond := 0 |};
         {| Class := 1; HeatTransferAlgorithm := 5; ExtBoundCond := 0 |};
         {| Class := 1; HeatTransferAlgorithm := 5; ExtBoundCond := 0 |} ];
     TypeIsWindow := [false; false; false];
     NumOfZones := 1;
     TotConstructs := 3;
     DoReport := true;
     RegularMaterial := 0;
     SurfaceClass_Window := 12;
     HeatTransferModel_EMPD := 5 |}.

(** Objects with a deep-layer depth below the surface-layer depth. *)
Definition shallow_objects : list ObjectItem :=
  [ {| MaterNum := 1;
       MaterialProps := props_of [200; 0.02; 1.5; 0.01; 3; 0.005; 0.002; 0; 0]%float |} ].

(** The sample model with constructions of three, one and two layers:
    an inert outside and middle layer on [Sample.gypsum], and an inert
    outside layer on [Sample.gypsum_deep]. *)
Definition layered (env : Environment) : Environment :=
  {| BeginEnvrnFlag := BeginEnvrnFlag env;
     TotSurfaces := TotSurfaces env;
     Surface := Surface env;
     Construct :=
       [ {| TotLayers := 3; LayerPoint := [2; 2; 1] |};
         {| TotLayers := 1; LayerPoint := [2] |};
         {| TotLayers := 2; LayerPoint := [2; 3] |} ];
     ZoneAirHumRat := ZoneAirHumRat env;
     OutBaroPress := OutBaroPress env;
     HMassConvInFD := HMassConvInFD env;
     RhoVaporAirIn := RhoVaporAirIn env;
     TimeStepZone := TimeStepZone env;
     KelvinConv := KelvinConv env;
     Lam := Lam env;
     Indeterminate := Indeterminate env;
     MoistureBalanceEMPDManager.GetMoistureBalanceEMPDInput :=
       MoistureBalanceEMPDManager.GetMoistureBalanceEMPDInput env |}.

End Input.

(** * Properties *)

(** ** The error monad *)

Lemma bind_Some {A B : Type} (m : option A) (f : A -> option B) (b : B) :
  bind m f = Some b <-> exists a, m = Some a /\ f a = Some b.
Proof.
  destruct m as [a|]; simpl; split.
  - intros H. exists a. auto.
  - intros [a' [E H]]. inversion E. subst. exact H.
  - discriminate.
  - intros [a' [E _]]. discriminate.
Qed.

(** Splits a hypothesis [x <- m ;; k = Some b] into its two steps. *)
Ltac bind_inv H :=
  let a := fresh "a" in
  let E := fresh "E" in
  apply bind_Some in H; destruct H as [a [E H]].

(** Proves a conjunction of closed equations by evaluating each. *)
Ltac evaluate :=
  lazymatch goal with
  | |- _ /\ _ => split; [vm_compute; reflexivity | evaluate]
  | |- _ => vm_compute; reflexivity
  end.

(** ** One-based arrays *)

Lemma nth_error_replace_nth_same {A : Type} (l : list A) (n : nat) (v : A) :
  (n < length l)%nat -> nth_error (replace_nth n v l) n = Some v.
Proof.
  revert n. induction l as [|h t IH]; intros [|n] Hn; simpl in *; try lia.
  - reflexivity.
  - apply IH. lia.
Qed.

Lemma nth_error_replace_nth_other {A : Type} (l : list A) (n m : nat) (v : A) :
  n <> m -> nth_error (replace_nth n v l) m = nth_error l m.
Proof.
  revert n m. induction l as [|h t IH]; intros [|n] [|m] Hnm; simpl; try reflexivity.
  - congruence.
  - apply IH. congruence.
Qed.

Lemma length_replace_nth {A : Type} (l : list A) (n : nat) (v : A) :
  length (replace_nth n v l) = length l.
Proof.
  revert n. induction l as [|h t IH]; intros [|n]; simpl; try reflexivity.
  rewrite IH. reflexivity.
Qed.

Lemma in_bounds_iff {A : Type} (l : list A) (i : Z) :
  in_bounds l i = true <-> 1 <= i <= Z.of_nat (length l).
Proof.
  unfold in_bounds. rewrite andb_true_iff, !Z.leb_le. tauto.
Qed.

Lemma elem_in_bounds {A : Type} (l : list A) (i : Z) :
  in_bounds l i = true -> exists v, elem l i = Some v.
Proof.
  intros H. apply in_bounds_iff in H. unfold elem.
  destruct (Z.leb_spec 1 i); [|lia].
  destruct (nth_error l (Z.to_nat (i - 1))) as [v|] eqn:E.
  - exists v. reflexivity.
  - apply nth_error_None in E. lia.
Qed.

Lemma elem_Some_in_bounds {A : Type} (l : list A) (i : Z) (v : A) :
  elem l i = Some v -> in_bounds l i = true.
Proof.
  unfold elem. intros H. apply in_bounds_iff.
  destruct (Z.leb_spec 1 i); [|discriminate].
  assert (Hlt : (Z.to_nat (i - 1) < length l)%nat).
  { apply nth_error_Some. congruence. }
  lia.
Qed.

Lemma assign_elem_Some {A : Type} (l l' : list A) (i : Z) (v : A) :
  assign_elem l i v = Some l' ->
  in_bounds l i = true /\ l' = replace_nth (Z.to_nat (i - 1)) v l.
Proof.
  unfold assign_elem. destruct (in_bounds l i); intros H; inversion H; auto.
Qed.

Lemma elem_assign_same {A : Type} (l l' : list A) (i : Z) (v : A) :
  assign_elem l i v = Some l' -> elem l' i = Some v.
Proof.
  intros H. apply assign_elem_Some in H. destruct H as [Hb ->].
  apply in_bounds_iff in Hb. unfold elem.
  destruct (Z.leb_spec 1 i); [|lia].
  apply nth_error_replace_nth_same. lia.
Qed.

Lemma elem_assign_other {A : Type} (l l' : list A) (i j : Z) (v : A) :
  assign_elem l i v = Some l' -> j <> i -> elem l' j = elem l j.
Proof.
  intros H Hj. apply assign_elem_Some in H. destruct H as [Hb ->].
  apply in_bounds_iff in Hb. unfold elem.
  destruct (Z.leb_spec 1 j); [|reflexivity].
  apply nth_error_replace_nth_other. lia.
Qed.

Lemma in_bounds_assign {A : Type} (l l' : list A) (i j : Z) (v : A) :
  assign_elem l i v = Some l' -> in_bounds l' j = in_bounds l j.
Proof.
  intros H. apply assign_elem_Some in H. destruct H as [_ ->].
  unfold in_bounds. rewrite length_replace_nth. reflexivity.
Qed.

Lemma In_range (n i : Z) : In i (range n) <-> 1 <= i <= n.
Proof.
  unfold range. rewrite in_map_iff. split.
  - intros [k [<- Hk]]. apply in_seq in Hk. lia.
  - intros H. exists (Z.to_nat i). split; [lia|]. apply in_seq. lia.
Qed.

Lemma length_range (n : Z) : length (range n) = Z.to_nat n.
Proof. unfold range. rewrite length_map, length_seq. reflexivity. Qed.

(** ** The store of arrays *)

Lemma arrays_with_array_same (st : State) (id : ArrayId) (a : Array1D) :
  arrays (with_array st id a) id = a.
Proof. simpl. destruct (ArrayId_eq_dec id id); congruence. Qed.

Lemma arrays_with_array_other (st : State) (id id' : ArrayId) (a : Array1D) :
  id <> id' -> arrays (with_array st id a) id' = arrays st id'.
Proof. intros H. simpl. destruct (ArrayId_eq_dec id id'); congruence. Qed.

Lemma in_range_get (st : State) (id : ArrayId) (i : Z) :
  in_range (arrays st id) i = true -> exists v, get st id i = Some v.
Proof.
  unfold get. destruct (arrays st id) as [l|]; simpl; [|discriminate].
  apply elem_in_bounds.
Qed.

Lemma get_in_range (st : State) (id : ArrayId) (i : Z) (v : float) :
  get st id i = Some v -> in_range (arrays st id) i = true.
Proof.
  unfold get. destruct (arrays st id) as [l|]; simpl; [|discriminate].
  apply elem_Some_in_bounds.
Qed.

Lemma set_Some (id : ArrayId) (i : Z) (v : float) (st st' : State) :
  set id i v st = Some st' ->
  exists l l', arrays st id = Some l /\ assign_elem l i v = Some l'
               /\ st' = with_array st id (Some l').
Proof.
  unfold set. intros H. bind_inv H. bind_inv H. inversion H. eauto.
Qed.

Lemma set_total (id : ArrayId) (i : Z) (v : float) (st : State) :
  in_range (arrays st id) i = true -> exists st', set id i v st = Some st'.
Proof.
  unfold set, assign_elem. destruct (arrays st id) as [l|]; simpl; [|discriminate].
  intros H. rewrite H. simpl. eauto.
Qed.

Lemma get_set_same (id : ArrayId) (i : Z) (v : float) (st st' : State) :
  set id i v st = Some st' -> get st' id i = Some v.
Proof.
  intros H. apply set_Some in H. destruct H as [l [l' [_ [Ha ->]]]].
  unfold get. rewrite arrays_with_array_same. simpl.
  eapply elem_assign_same. exact Ha.
Qed.

Lemma arrays_set_other (id id' : ArrayId) (i : Z) (v : float) (st st' : State) :
  set id i v st = Some st' -> id <> id' -> arrays st' id' = arrays st id'.
Proof.
  intros H Hid. apply set_Some in H. destruct H as [l [l' [_ [_ ->]]]].
  apply arrays_with_array_other. exact Hid.
Qed.

Lemma get_set_other_index (id id' : ArrayId) (i j : Z) (v : float) (st st' : State) :
  set id i v st = Some st' -> j <> i -> get st' id' j = get st id' j.
Proof.
  intros H Hj. apply set_Some in H. destruct H as [l [l' [Hl [Ha ->]]]].
  unfold get. destruct (ArrayId_eq_dec id id') as [<-|Hid].
  - rewrite arrays_with_array_same, Hl. simpl.
    eapply elem_assign_other; eauto.
  - rewrite arrays_with_array_other by exact Hid. reflexivity.
Qed.

Lemma in_range_set (id id' : ArrayId) (i j : Z) (v : float) (st st' : State) :
  set id i v st = Some st' ->
  in_range (arrays st' id') j = in_range (arrays st id') j.
Proof.
  intros H. apply set_Some in H. destruct H as [l [l' [Hl [Ha ->]]]].
  destruct (ArrayId_eq_dec id id') as [<-|Hid].
  - rewrite arrays_with_array_same, Hl. simpl.
    eapply in_bounds_assign; eauto.
  - rewrite arrays_with_array_other by exact Hid. reflexivity.
Qed.

Lemma set_rest (id : ArrayId) (i : Z) (v : float) (st st' : State) :
  set id i v st = Some st' ->
  Material st' = Material st /\ InitEnvrnFlag st' = InitEnvrnFlag st
  /\ OneTimeFlag st' = OneTimeFlag st.
Proof.
  intros H. apply set_Some in H. destruct H as [l [l' [_ [_ ->]]]].
  simpl. auto.
Qed.

(** ** Blocks of assignments *)

Lemma assign_all_arrays_other (i : Z) (w : list (ArrayId * float)) (st st' : State) :
  assign_all i w st = Some st' ->
  forall id, ~ In id (map fst w) -> arrays st' id = arrays st id.
Proof.
  revert st. induction w as [|[id0 v0] w IH]; simpl; intros st H id Hid.
  - inversion H. reflexivity.
  - bind_inv H. rewrite (IH _ H id) by tauto.
    eapply arrays_set_other; eauto.
Qed.

Lemma assign_all_get_other_index (i : Z) (w : list (ArrayId * float)) (st st' : State) :
  assign_all i w st = Some st' ->
  forall id j, j <> i -> get st' id j = get st id j.
Proof.
  revert st. induction w as [|[id0 v0] w IH]; simpl; intros st H id j Hj.
  - inversion H. reflexivity.
  - bind_inv H. rewrite (IH _ H id j Hj).
    eapply get_set_other_index; eauto.
Qed.

Lemma assign_all_in_range (i : Z) (w : list (ArrayId * float)) (st st' : State) :
  assign_all i w st = Some st' ->
  forall id j, in_range (arrays st' id) j = in_range (arrays st id) j.
Proof.
  revert st. induction w as [|[id0 v0] w IH]; simpl; intros st H id j.
  - inversion H. reflexivity.
  - bind_inv H. rewrite (IH _ H id j).
    eapply in_range_set; eauto.
Qed.

Lemma assign_all_rest (i : Z) (w : list (ArrayId * float)) (st st' : State) :
  assign_all i w st = Some st' ->
  Material st' = Material st /\ InitEnvrnFlag st' = InitEnvrnFlag st
  /\ OneTimeFlag st' = OneTimeFlag st.
Proof.
  revert st. induction w as [|[id0 v0] w IH]; simpl; intros st H.
  - inversion H. auto.
  - bind_inv H. destruct (IH _ H) as [H1 [H2 H3]].
    destruct (set_rest _ _ _ _ _ E) as [H4 [H5 H6]].
    repeat split; congruence.
Qed.

Lemma assign_all_get (i : Z) (w : list (ArrayId * float)) (st st' : State) :
  assign_all i w st = Some st' ->
  NoDup (map fst w) ->
  forall id v, In (id, v) w -> get st' id i = Some v.
Proof.
  revert st. induction w as [|[id0 v0] w IH]; simpl; intros st H Hnd id v Hin.
  - contradiction.
  - bind_inv H. inversion Hnd as [|x l Hnotin Hnd']. subst.
    destruct Hin as [Hhd|Htl].
    + inversion Hhd. subst. unfold get.
      rewrite (assign_all_arrays_other _ _ _ _ H id Hnotin).
      apply (get_set_same _ _ _ _ _ E).
    + eapply IH; eauto.
Qed.

Lemma assign_all_total (i : Z) (w : list (ArrayId * float)) (st : State) :
  (forall id, In id (map fst w) -> in_range (arrays st id) i = true) ->
  exists st', assign_all i w st = Some st'.
Proof.
  revert st. induction w as [|[id0 v0] w IH]; simpl; intros st Hr.
  - eauto.
  - destruct (set_total id0 i v0 st) as [st1 E]; [apply Hr; auto|].
    rewrite E. simpl. apply IH. intros id Hid.
    rewrite (in_range_set _ _ _ _ _ _ _ E). apply Hr. auto.
Qed.

(** ** The seeding loop *)

Lemma seed_surface_cases (env : Environment) (i : Z) (st st' : State) :
  seed_surface env i st = Some st' ->
  (exists s, elem (Surface env) i = Some s /\ HeatTransSurf s = false /\ st' = st)
  \/ (exists s humrat rho w,
        elem (Surface env) i = Some s /\ HeatTransSurf s = true
        /\ elem (ZoneAirHumRat env) (Zone s) = Some humrat
        /\ elem (RhoVaporAirIn env) i = Some rho
        /\ map fst w = seeded_by_Init
        /\ assign_all i w st = Some st'
        /\ In (RVSurfaceOld, humrat) w /\ In (RVSurface, humrat) w
        /\ In (RVSurfLayer, rho) w /\ In (RVSurfLayerOld, rho) w
        /\ In (RVDeepLayer, rho) w /\ In (RVdeepOld, rho) w /\ In (RVwall, rho) w
        /\ In (HMSurfaceLayer,
               if (humrat =? 0)%float then 0.003%float else 0.0003%float) w
        /\ In (MassFluxSurfaceLayer, 0%float) w
        /\ In (MassFluxDeepLayer, 0%float) w
        /\ In (MassFluxZone, 0%float) w).
Proof.
  unfold seed_surface. intros H. bind_inv H. rename a into s.
  destruct (HeatTransSurf s) eqn:HT; simpl in H.
  - right. bind_inv H. rename a into humrat.
    pose (w := fun rho hm : float =>
      [(RVSurfaceOld, humrat); (RVSurface, humrat); (RVSurfLayer, rho);
       (RVSurfLayerOld, rho); (RVDeepLayer, rho); (RVdeepOld, rho);
       (RVwall, rho); (HMSurfaceLayer, hm); (MassFluxSurfaceLayer, 0.000%float);
       (MassFluxDeepLayer, 0.000%float); (MassFluxZone, 0.000%float)]).
    destruct (humrat =? 0)%float eqn:Hz; bind_inv H; rename a into rho.
    + exists s, humrat, rho, (w rho 0.003%float). rewrite Hz.
      repeat (split; [first [eassumption | reflexivity]|]).
      simpl. intuition.
    + exists s, humrat, rho, (w rho 0.0003%float). rewrite Hz.
      repeat (split; [first [eassumption | reflexivity]|]).
      simpl. intuition.
  - left. exists s. inversion H. auto.
Qed.

Lemma NoDup_seeded_by_Init : NoDup seeded_by_Init.
Proof.
  unfold seeded_by_Init.
  repeat (constructor; [simpl; intuition discriminate|]). constructor.
Qed.

Lemma seed_surface_frame (env : Environment) (i : Z) (st st' : State) :
  seed_surface env i st = Some st' ->
  (forall id j, j <> i -> get st' id j = get st id j)
  /\ (forall id, ~ In id seeded_by_Init -> arrays st' id = arrays st id)
  /\ (forall id j, in_range (arrays st' id) j = in_range (arrays st id) j)
  /\ Material st' = Material st /\ InitEnvrnFlag st' = InitEnvrnFlag st
  /\ OneTimeFlag st' = OneTimeFlag st.
Proof.
  intros H. apply seed_surface_cases in H.
  destruct H as [[s [_ [_ ->]]] | [s [humrat [rho [w H]]]]].
  - repeat split; reflexivity.
  - destruct H as [_ [_ [_ [_ [Hw [Ha _]]]]]].
    split; [|split; [|split]].
    + intros id j Hj. eapply assign_all_get_other_index; eauto.
    + intros id Hid. eapply assign_all_arrays_other; eauto. rewrite Hw. exact Hid.
    + intros id j. eapply assign_all_in_range; eauto.
    + eapply assign_all_rest; eauto.
Qed.

Lemma seed_surface_seeds (env : Environment) (i : Z) (st st' : State) (s : SurfaceData) :
  seed_surface env i st = Some st' ->
  elem (Surface env) i = Some s -> HeatTransSurf s = true ->
  exists humrat rho,
    elem (ZoneAirHumRat env) (Zone s) = Some humrat
    /\ elem (RhoVaporAirIn env) i = Some rho
    /\ seeded st' i humrat rho.
Proof.
  intros H Hs HT. apply seed_surface_cases in H.
  destruct H as [[s' [Hs' [HT' _]]] | [s' [humrat [rho [w H]]]]].
  - congruence.
  - destruct H as [Hs' [_ [Hh [Hr [Hw [Ha Hin]]]]]].
    assert (s' = s) by congruence. subst s'.
    exists humrat, rho. split; [exact Hh|]. split; [exact Hr|].
    assert (Hnd : NoDup (map fst w)) by (rewrite Hw; apply NoDup_seeded_by_Init).
    pose proof (assign_all_get _ _ _ _ Ha Hnd) as G.
    unfold seeded. intuition.
Qed.

Lemma seed_surface_total (env : Environment) (i : Z) (st : State) :
  match elem (Surface env) i with
  | Some s =>
      negb (HeatTransSurf s)
      || (in_bounds (ZoneAirHumRat env) (Zone s) && in_bounds (RhoVaporAirIn env) i)
  | None => false
  end = true ->
  (forall id, In id seeded_by_Init -> in_range (arrays st id) i = true) ->
  exists st', seed_surface env i st = Some st'.
Proof.
  unfold seed_surface. destruct (elem (Surface env) i) as [s|]; [|discriminate].
  cbn [bind]. destruct (HeatTransSurf s); cbn [negb orb]; [|eauto].
  rewrite andb_true_iff. intros [Hz Hr] Hin.
  apply elem_in_bounds in Hz. destruct Hz as [humrat ->].
  apply elem_in_bounds in Hr. destruct Hr as [rho ->]. cbn [bind].
  destruct (humrat =? 0)%float; apply assign_all_total; exact Hin.
Qed.

Lemma for_each_seed_frame (env : Environment) (idx : list Z) (st st' : State) :
  for_each idx (seed_surface env) st = Some st' ->
  (forall id, ~ In id seeded_by_Init -> arrays st' id = arrays st id)
  /\ (forall id j, in_range (arrays st' id) j = in_range (arrays st id) j)
  /\ Material st' = Material st /\ InitEnvrnFlag st' = InitEnvrnFlag st
  /\ OneTimeFlag st' = OneTimeFlag st.
Proof.
  revert st. induction idx as [|i idx IH]; simpl; intros st H.
  - inversion H. repeat split; reflexivity.
  - bind_inv H. destruct (IH _ H) as [H1 [H2 [H3 [H4 H5]]]].
    destruct (seed_surface_frame _ _ _ _ E) as [_ [G1 [G2 [G3 [G4 G5]]]]].
    split; [|split; [|repeat split; congruence]].
    + intros id Hid. rewrite H1, G1; auto.
    + intros id j. rewrite H2, G2. reflexivity.
Qed.

(** The loop leaves alone the elements of the surfaces it does not visit
    and of those that transfer no heat. *)
Lemma for_each_seed_skips (env : Environment) (idx : list Z) (st st' : State) (j : Z) :
  for_each idx (seed_surface env) st = Some st' ->
  (~ In j idx
   \/ exists s, elem (Surface env) j = Some s /\ HeatTransSurf s = false) ->
  forall id, get st' id j = get st id j.
Proof.
  revert st. induction idx as [|i idx IH]; simpl; intros st H Hj id.
  - inversion H. reflexivity.
  - bind_inv H. rewrite (IH _ H) by tauto.
    destruct (Z.eq_dec j i) as [->|Hne].
    + destruct Hj as [Hj|[s [Hs HT]]]; [tauto|].
      apply seed_surface_cases in E.
      destruct E as [[s' [_ [_ ->]]] | [s' [h [r [w [Hs' [HT' _]]]]]]];
        [reflexivity|congruence].
    + destruct (seed_surface_frame _ _ _ _ E) as [G _]. apply G. exact Hne.
Qed.

Lemma for_each_seed_seeds (env : Environment) (idx : list Z) (st st' : State)
  (i : Z) (s : SurfaceData) :
  for_each idx (seed_surface env) st = Some st' ->
  NoDup idx -> In i idx ->
  elem (Surface env) i = Some s -> HeatTransSurf s = true ->
  exists humrat rho,
    elem (ZoneAirHumRat env) (Zone s) = Some humrat
    /\ elem (RhoVaporAirIn env) i = Some rho
    /\ seeded st' i humrat rho.
Proof.
  revert st. induction idx as [|k idx IH]; simpl; intros st H Hnd Hin Hs HT.
  - contradiction.
  - bind_inv H. inversion Hnd as [|x l Hnotin Hnd']. subst.
    destruct Hin as [->|Hin].
    + destruct (seed_surface_seeds _ _ _ _ _ E Hs HT) as [humrat [rho [Hh [Hr Hseed]]]].
      exists humrat, rho. split; [exact Hh|]. split; [exact Hr|].
      pose proof (for_each_seed_skips _ _ _ _ i H (or_introl Hnotin)) as G.
      unfold seeded in *. rewrite !G. exact Hseed.
    + eapply IH; eauto.
Qed.

Lemma for_each_seed_total (env : Environment) (idx : list Z) (st : State) :
  forallb (fun i =>
             match elem (Surface env) i with
             | Some s =>
                 negb (HeatTransSurf s)
                 || (in_bounds (ZoneAirHumRat env) (Zone s)
                     && in_bounds (RhoVaporAirIn env) i)
             | None => false
             end) idx = true ->
  (forall id i, In id seeded_by_Init -> In i idx -> in_range (arrays st id) i = true) ->
  exists st', for_each idx (seed_surface env) st = Some st'.
Proof.
  revert st. induction idx as [|i idx IH]; simpl; intros st Hok Hr.
  - eauto.
  - apply andb_true_iff in Hok. destruct Hok as [Hi Hok].
    destruct (seed_surface_total env i st Hi) as [st1 E].
    { intros id Hid. apply Hr; auto. }
    rewrite E. simpl. apply IH; [exact Hok|].
    intros id j Hid Hj.
    destruct (seed_surface_frame _ _ _ _ E) as [_ [_ [G _]]].
    rewrite G. apply Hr; auto.
Qed.

Lemma NoDup_range (n : Z) : NoDup (range n).
Proof.
  unfold range. apply Injective_map_NoDup.
  - intros a b H. lia.
  - apply seq_NoDup.
Qed.

(** ** InitMoistureBalanceEMPD *)

Lemma In_allocated_by_Init (id : ArrayId) : In id allocated_by_Init.
Proof. destruct id; simpl; tauto. Qed.

Lemma arrays_after_allocation (env : Environment) (n : Z) (st : State) (id : ArrayId) :
  arrays (fold_left (allocate env n) allocated_by_Init st) id
  = Some (map (Indeterminate env id) (range n)).
Proof. destruct id; reflexivity. Qed.

Lemma allocated_for_in_range (st : State) (n : Z) :
  allocated_for st n = true ->
  forall id i, 1 <= i <= n -> in_range (arrays st id) i = true.
Proof.
  unfold allocated_for. intros H id i Hi.
  rewrite forallb_forall in H. specialize (H id (In_allocated_by_Init id)).
  destruct (arrays st id) as [l|]; [|discriminate]. simpl.
  apply Z.leb_le in H. apply in_bounds_iff. lia.
Qed.

Lemma allocated_for_after_allocation (env : Environment) (n : Z) (st : State) :
  allocated_for (fold_left (allocate env n) allocated_by_Init st) n = true.
Proof.
  unfold allocated_for. apply forallb_forall. intros id _.
  rewrite arrays_after_allocation, length_map, length_range.
  apply Z.leb_le. lia.
Qed.

Lemma arrays_init_report (st : State) (id : ArrayId) :
  arrays (init_report st) id
  = match report_default id with
    | Some v => fill (arrays st id) v
    | None => arrays st id
    end.
Proof. destruct id; reflexivity. Qed.

Lemma elem_map_const {A : Type} (l : list A) (v : float) (i : Z) :
  1 <= i <= Z.of_nat (length l) -> elem (map (fun _ => v) l) i = Some v.
Proof.
  intros Hi. unfold elem. destruct (Z.leb_spec 1 i); [|lia].
  rewrite nth_error_map.
  destruct (nth_error l (Z.to_nat (i - 1))) eqn:E; [reflexivity|].
  apply nth_error_None in E. lia.
Qed.

Lemma seeding_total (env : Environment) (st : State) :
  seeding_inputs_ok env = true ->
  allocated_for st (TotSurfaces env) = true ->
  exists st', for_each (range (TotSurfaces env)) (seed_surface env) st = Some st'.
Proof.
  intros Hin Hal. apply for_each_seed_total; [exact Hin|].
  intros id i _ Hi. apply In_range in Hi.
  apply allocated_for_in_range with (n := TotSurfaces env); assumption.
Qed.

(** After the first use the routine is the seeding loop alone. *)
Lemma Init_later (env : Environment) (st : State) :
  InitEnvrnFlag st = false ->
  InitMoistureBalanceEMPD env st
  = for_each (range (TotSurfaces env)) (seed_surface env) st.
Proof.
  intros H. unfold InitMoistureBalanceEMPD. rewrite H.
  destruct (for_each (range (TotSurfaces env)) (seed_surface env) st) as [st1|] eqn:E;
    cbn [bind]; [|reflexivity].
  destruct (for_each_seed_frame _ _ _ _ E) as [_ [_ [_ [Hf _]]]].
  rewrite Hf, H. reflexivity.
Qed.

Lemma Init_first_use (env : Environment) (st : State) :
  InitEnvrnFlag st = true ->
  InitMoistureBalanceEMPD env st
  = (st1 <- for_each (range (TotSurfaces env)) (seed_surface env)
              (fold_left (allocate env (TotSurfaces env)) allocated_by_Init st) ;;
     materials <- GetMoistureBalanceEMPDInput env (Material st) ;;
     Some (with_InitEnvrnFlag (with_Material (init_report st1) materials) false)).
Proof.
  intros H. unfold InitMoistureBalanceEMPD. rewrite H.
  destruct (for_each (range (TotSurfaces env)) (seed_surface env)
              (fold_left (allocate env (TotSurfaces env)) allocated_by_Init st))
    as [st1|] eqn:E; cbn [bind]; [|reflexivity].
  destruct (for_each_seed_frame _ _ _ _ E) as [_ [_ [Hm [Hf _]]]].
  simpl in Hf, Hm. rewrite Hf, H. cbn [negb].
  replace (Material (init_report st1)) with (Material st)
    by (rewrite <- Hm; reflexivity).
  destruct (GetMoistureBalanceEMPDInput env (Material st)) as [m|];
    cbn [bind]; [|reflexivity].
  replace (InitEnvrnFlag (with_Material (init_report st1) m))
    with (InitEnvrnFlag st1) by reflexivity.
  rewrite Hf, H. reflexivity.
Qed.

(** What a successful call of the routine does, in both cases. *)
Lemma Init_Some (env : Environment) (st st' : State) :
  InitMoistureBalanceEMPD env st = Some st' ->
  exists st0 st1,
    for_each (range (TotSurfaces env)) (seed_surface env) st0 = Some st1
    /\ (forall id, arrays st' id
                   = if InitEnvrnFlag st
                     then arrays (init_report st1) id
                     else arrays st1 id)
    /\ (InitEnvrnFlag st = false -> st0 = st /\ st' = st1)
    /\ (InitEnvrnFlag st = true ->
        st0 = fold_left (allocate env (TotSurfaces env)) allocated_by_Init st)
    /\ InitEnvrnFlag st' = false
    /\ OneTimeFlag st' = OneTimeFlag st.
Proof.
  intros H. destruct (InitEnvrnFlag st) eqn:F.
  - rewrite (Init_first_use _ _ F) in H. bind_inv H. rename a into st1.
    bind_inv H. inversion H. subst st'.
    exists (fold_left (allocate env (TotSurfaces env)) allocated_by_Init st), st1.
    destruct (for_each_seed_frame _ _ _ _ E) as [_ [_ [_ [_ Ho]]]].
    repeat split; try reflexivity; try discriminate; auto.
  - rewrite (Init_later _ _ F) in H.
    exists st, st'.
    destruct (for_each_seed_frame _ _ _ _ H) as [_ [_ [_ [Hf Ho]]]].
    repeat split; try reflexivity; try discriminate; try congruence.
Qed.

Lemma Init_total (env : Environment) (st : State) :
  Init_ready env st = true ->
  exists st', InitMoistureBalanceEMPD env st = Some st'.
Proof.
  unfold Init_ready. rewrite andb_true_iff. intros [Hin Hr].
  destruct (InitEnvrnFlag st) eqn:F.
  - rewrite (Init_first_use _ _ F).
    destruct (seeding_total env
                (fold_left (allocate env (TotSurfaces env)) allocated_by_Init st)
                Hin (allocated_for_after_allocation _ _ _)) as [st1 E].
    rewrite E. cbn [bind].
    destruct (GetMoistureBalanceEMPDInput env (Material st)); [|discriminate].
    cbn [bind]. eauto.
  - rewrite (Init_later _ _ F). apply seeding_total; assumption.
Qed.

Lemma Init_keeps_seeded_arrays (env : Environment) (st st' st1 : State) :
  (forall id, arrays st' id
              = if InitEnvrnFlag st then arrays (init_report st1) id
                else arrays st1 id) ->
  forall id, In id seeded_by_Init -> arrays st' id = arrays st1 id.
Proof.
  intros H id Hin. rewrite H. destruct (InitEnvrnFlag st); [|reflexivity].
  rewrite arrays_init_report.
  destruct id; simpl in Hin; try reflexivity; exfalso; intuition discriminate.
Qed.

Lemma Init_seeds (env : Environment) (st st' : State) (i : Z) (s : SurfaceData) :
  InitMoistureBalanceEMPD env st = Some st' ->
  1 <= i <= TotSurfaces env ->
  elem (Surface env) i = Some s -> HeatTransSurf s = true ->
  exists humrat rho,
    elem (ZoneAirHumRat env) (Zone s) = Some humrat
    /\ elem (RhoVaporAirIn env) i = Some rho
    /\ seeded st' i humrat rho.
Proof.
  intros H Hi Hs HT. apply Init_Some in H.
  destruct H as [st0 [st1 [Hloop [Harr _]]]].
  destruct (for_each_seed_seeds _ _ _ _ i s Hloop (NoDup_range _)
              (proj2 (In_range _ _) Hi) Hs HT) as [humrat [rho [Hh [Hr Hseed]]]].
  exists humrat, rho. split; [exact Hh|]. split; [exact Hr|].
  pose proof (Init_keeps_seeded_arrays env st st' st1 Harr) as K.
  unfold seeded, get in *.
  rewrite !K by (simpl; tauto). exact Hseed.
Qed.

Lemma Init_first_use_report (env : Environment) (st st' : State) (id : ArrayId)
  (v : float) (i : Z) :
  InitEnvrnFlag st = true ->
  InitMoistureBalanceEMPD env st = Some st' ->
  report_default id = Some v ->
  1 <= i <= TotSurfaces env ->
  get st' id i = Some v.
Proof.
  intros F H Hd Hi. apply Init_Some in H.
  destruct H as [st0 [st1 [Hloop [Harr [_ [H0 _]]]]]].
  specialize (H0 F). subst st0.
  destruct (for_each_seed_frame _ _ _ _ Hloop) as [Hother _].
  unfold get. rewrite Harr, F, arrays_init_report, Hd, Hother.
  - rewrite arrays_after_allocation. simpl.
    apply elem_map_const. rewrite length_map, length_range. lia.
  - destruct id; simpl in *; try discriminate; intuition discriminate.
Qed.

Lemma Init_later_report (env : Environment) (st st' : State) (id : ArrayId) :
  InitEnvrnFlag st = false ->
  InitMoistureBalanceEMPD env st = Some st' ->
  report_default id <> None ->
  arrays st' id = arrays st id.
Proof.
  intros F H Hd. rewrite (Init_later _ _ F) in H.
  destruct (for_each_seed_frame _ _ _ _ H) as [Hother _].
  apply Hother. destruct id; simpl in *; try congruence; intuition discriminate.
Qed.

(** ** CalcMoistureBalanceEMPD *)

Lemma reset_coupling_cases (env : Environment) (st0 st : State) :
  reset_coupling env st0 = Some st ->
  (BeginEnvrnFlag env && OneTimeFlag st0 = false
   /\ st = (if negb (BeginEnvrnFlag env) then with_OneTimeFlag st0 true else st0))
  \/ (BeginEnvrnFlag env = true /\ OneTimeFlag st0 = true
      /\ exists st1, InitMoistureBalanceEMPD env st0 = Some st1
                     /\ st = with_OneTimeFlag st1 false).
Proof.
  unfold reset_coupling. intros H.
  destruct (BeginEnvrnFlag env && OneTimeFlag st0) eqn:F.
  - right. apply andb_true_iff in F. destruct F as [FB FO].
    bind_inv H. bind_inv E. inversion E. subst a.
    rewrite FB in H. inversion H. eauto.
  - left. cbn [bind] in H. inversion H. auto.
Qed.



Lemma reset_coupling_quiet (env : Environment) (st0 st : State) :
  reset_coupling env st0 = Some st ->
  BeginEnvrnFlag env && OneTimeFlag st0 = false ->
  arrays st = arrays st0 /\ Material st = Material st0
  /\ InitEnvrnFlag st = InitEnvrnFlag st0.
Proof.
  intros H F. apply reset_coupling_cases in H.
  destruct H as [[_ ->] | [FB [FO _]]].
  - destruct (negb (BeginEnvrnFlag env)); auto.
  - rewrite FB, FO in F. discriminate.
Qed.

Lemma bind_references_Some (env : Environment) (st : State) (SurfNum : Z)
  (r : References) :
  bind_references env st SurfNum = Some r ->
  elem (Surface env) SurfNum = Some (surface r)
  /\ get st RVSurface SurfNum = Some (rv_surface r)
  /\ get st RVSurfaceOld SurfNum = Some (rv_surface_old r)
  /\ elem (HMassConvInFD env) SurfNum = Some (h_mass_conv_in_fd r)
  /\ elem (RhoVaporAirIn env) SurfNum = Some (rho_vapor_air_in r)
  /\ get st RVSurfLayer SurfNum = Some (rv_surf_layer r)
  /\ get st RVDeepLayer SurfNum = Some (rv_deep_layer r)
  /\ get st RVdeepOld SurfNum = Some (rv_deep_old r)
  /\ get st RVSurfLayerOld SurfNum = Some (rv_surf_layer_old r)
  /\ forall id, In id bound_on_entry -> in_range (arrays st id) SurfNum = true.
Proof.
  unfold bind_references. intros H. repeat bind_inv H.
  inversion H. subst r. simpl.
  repeat (split; [assumption|]).
  intros id Hin. simpl in Hin.
  repeat (destruct Hin as [<-|Hin]; [eapply get_in_range; eassumption|]).
  contradiction.
Qed.

(** The references depend on the state through the elements [SurfNum] of
    the arrays alone. *)
Lemma bind_references_ext (env : Environment) (st st' : State) (SurfNum : Z) :
  (forall id, get st' id SurfNum = get st id SurfNum) ->
  bind_references env st' SurfNum = bind_references env st SurfNum.
Proof. intros H. unfold bind_references. rewrite !H. reflexivity. Qed.

Lemma inside_material_ext (env : Environment) (st st' : State) (s : SurfaceData) :
  Material st' = Material st ->
  inside_material env st' s = inside_material env st s.
Proof. intros H. unfold inside_material. rewrite H. reflexivity. Qed.

Lemma NoDup_stores (env : Environment) (v : Locals) :
  NoDup (map fst (stores env v)).
Proof.
  simpl. repeat (constructor; [simpl; intuition discriminate|]). constructor.
Qed.


Lemma CalcBody_not_moisture_active (X : Externals) (env : Environment) (SurfNum : Z)
  (TempSurfIn TempZone TempSat0 : float) (st : State) (r : References)
  (material : MaterialProperties) (humrat : float) :
  bind_references env st SurfNum = Some r ->
  HeatTransSurf (surface r) = true ->
  inside_material env st (surface r) = Some material ->
  (EMPDmu material <=? 0.0)%float = true ->
  elem (ZoneAirHumRat env) (Zone (surface r)) = Some humrat ->
  exists st1 st',
    set HeatFluxLatent SurfNum 0.0%float st = Some st1
    /\ set RVSurface SurfNum
         (PsyRhovFnTdbWPb X TempZone humrat (OutBaroPress env)) st1 = Some st'
    /\ CalcBody X env SurfNum TempSurfIn TempZone TempSat0 st = Some (st', TempSat0).
Proof.
  intros Hr HT Hm Hmu Hz. unfold CalcBody. rewrite Hr. cbn [bind].
  apply bind_references_Some in Hr.
  destruct Hr as [_ [_ [_ [_ [_ [_ [_ [_ [_ Hin]]]]]]]]].
  destruct (set_total HeatFluxLatent SurfNum 0.0%float st) as [st1 E].
  { apply Hin. simpl. tauto. }
  destruct (set_total RVSurface SurfNum
              (PsyRhovFnTdbWPb X TempZone humrat (OutBaroPress env)) st1)
    as [st' E'].
  { rewrite (in_range_set _ _ _ _ _ _ _ E). apply Hin. simpl. tauto. }
  exists st1, st'. rewrite E, HT. cbn [bind negb].
  rewrite (inside_material_ext env st st1)
    by (destruct (set_rest _ _ _ _ _ E) as [-> _]; reflexivity).
  rewrite Hm. cbn [bind]. rewrite Hmu, Hz. cbn [bind]. rewrite E'.
  cbn [bind]. auto.
Qed.

Lemma CalcBody_moisture_active (X : Externals) (env : Environment) (SurfNum : Z)
  (TempSurfIn TempZone TempSat0 : float) (st : State) (r : References)
  (material : MaterialProperties) :
  bind_references env st SurfNum = Some r ->
  HeatTransSurf (surface r) = true ->
  inside_material env st (surface r) = Some material ->
  (EMPDmu material <=? 0.0)%float = false ->
  report_bound st SurfNum = true ->
  exists st1 st',
    set HeatFluxLatent SurfNum 0.0%float st = Some st1
    /\ assign_all SurfNum
         (stores env (balance X env material TempSurfIn r)) st1 = Some st'
    /\ CalcBody X env SurfNum TempSurfIn TempZone TempSat0 st
       = Some (st', TempSat (balance X env material TempSurfIn r)).
Proof.
  intros Hr HT Hm Hmu Hrep. unfold CalcBody. rewrite Hr. cbn [bind].
  apply bind_references_Some in Hr.
  destruct Hr as [_ [_ [_ [_ [_ [_ [_ [_ [_ Hin]]]]]]]]].
  destruct (set_total HeatFluxLatent SurfNum 0.0%float st) as [st1 E].
  { apply Hin. simpl. tauto. }
  destruct (assign_all_total SurfNum
              (stores env (balance X env material TempSurfIn r)) st1)
    as [st' E'].
  { intros id Hid. rewrite (in_range_set _ _ _ _ _ _ _ E).
    unfold report_bound in Hrep. rewrite forallb_forall in Hrep.
    simpl in Hid.
    repeat (destruct Hid as [<-|Hid];
            [first [apply Hin; simpl; tauto | apply Hrep; simpl; tauto]|]).
    contradiction. }
  exists st1, st'. rewrite E, HT. cbn [bind negb].
  rewrite (inside_material_ext env st st1)
    by (destruct (set_rest _ _ _ _ _ E) as [-> _]; reflexivity).
  rewrite Hm. cbn [bind]. rewrite Hmu. cbn zeta. rewrite E'.
  cbn [bind]. auto.
Qed.

(** The body of the calculation writes [SurfNum]'s elements only, keeps
    the arrays of [kept_by_Calc], the material table and the latches. *)
Lemma CalcBody_frame (X : Externals) (env : Environment) (SurfNum : Z)
  (TempSurfIn TempZone TempSat0 : float) (st st' : State) (t : float) :
  CalcBody X env SurfNum TempSurfIn TempZone TempSat0 st = Some (st', t) ->
  (forall id, In id kept_by_Calc -> arrays st' id = arrays st id)
  /\ (forall id j, j <> SurfNum -> get st' id j = get st id j)
  /\ Material st' = Material st /\ InitEnvrnFlag st' = InitEnvrnFlag st
  /\ OneTimeFlag st' = OneTimeFlag st.
Proof.
  unfold CalcBody. intros H. bind_inv H. rename a into r.
  bind_inv H. rename a into st1.
  pose proof (set_rest _ _ _ _ _ E0) as [M1 [F1 O1]].
  assert (K1 : forall id, In id kept_by_Calc -> arrays st1 id = arrays st id).
  { intros id Hid. eapply arrays_set_other; eauto.
    simpl in Hid. intuition (subst; discriminate). }
  assert (J1 : forall id j, j <> SurfNum -> get st1 id j = get st id j).
  { intros id j Hj. eapply get_set_other_index; eauto. }
  destruct (HeatTransSurf (surface r)); cbn [negb] in H.
  - bind_inv H. rename a into material.
    destruct (EMPDmu material <=? 0.0)%float.
    + bind_inv H. bind_inv H. inversion H. subst a0 t. clear H.
      pose proof (set_rest _ _ _ _ _ E3) as [M2 [F2 O2]].
      repeat split; try congruence.
      * intros id Hid. rewrite <- K1 by exact Hid.
        eapply arrays_set_other; eauto.
        simpl in Hid. intuition (subst; discriminate).
      * intros id j Hj. rewrite <- J1 by exact Hj.
        eapply get_set_other_index; eauto.
    + cbn zeta in H. bind_inv H. inversion H. subst a t. clear H.
      pose proof (assign_all_rest _ _ _ _ E2) as [M2 [F2 O2]].
      repeat split; try congruence.
      * intros id Hid. rewrite <- K1 by exact Hid.
        eapply assign_all_arrays_other; eauto.
        simpl in Hid. simpl. intuition (subst; discriminate).
      * intros id j Hj. rewrite <- J1 by exact Hj.
        eapply assign_all_get_other_index; eauto.
  - inversion H. subst. repeat split; auto.
Qed.




(** ** Binary64 arithmetic around zero and NaN *)

Section Binary64.

Local Open Scope float_scope.















End Binary64.

(** What the moisture-active path leaves in the arrays. *)
Lemma Calc_moisture_active (X : Externals) (env : Environment) (SurfNum : Z)
  (TempSurfIn TempZone TempSat0 : float) (st0 st : State) (r : References)
  (material : MaterialProperties) :
  reset_coupling env st0 = Some st ->
  bind_references env st SurfNum = Some r ->
  HeatTransSurf (surface r) = true ->
  inside_material env st (surface r) = Some material ->
  (EMPDmu material <=? 0.0)%float = false ->
  report_bound st SurfNum = true ->
  exists st',
    CalcMoistureBalanceEMPD X env SurfNum TempSurfIn TempZone TempSat0 st0
    = Some (st', TempSat (balance X env material TempSurfIn r))
    /\ forall id val,
         In (id, val) (stores env (balance X env material TempSurfIn r)) ->
         get st' id SurfNum = Some val.
Proof.
  intros Hreset Hr HT Hm Hmu Hrep.
  destruct (CalcBody_moisture_active X env SurfNum TempSurfIn TempZone TempSat0
              st r material Hr HT Hm Hmu Hrep) as [st1 [st' [_ [E Hbody]]]].
  exists st'. split.
  - unfold CalcMoistureBalanceEMPD. rewrite Hreset. exact Hbody.
  - intros id val Hin.
    exact (assign_all_get _ _ _ _ E (NoDup_stores _ _) id val Hin).
Qed.

(** * The specification, statement by statement *)

(** C9.  New-environment seeding.  Whenever [InitMoistureBalanceEMPD] runs
    (its inputs found), it returns, and then for every heat-transfer
    surface the two surface vapor-density slots hold the zone humidity
    ratio, the layer slots (current and old, and the wall slot) hold the
    incoming-air vapor density, the three mass fluxes are zero, and the
    surface-layer mass-transfer coefficient is 0.003 when the zone humidity
    ratio compares equal to zero and 0.0003 otherwise; nothing else depends
    on the branch taken. *)
Theorem InitMoistureBalanceEMPD_seeds_every_heat_transfer_surface
  (env : Environment) (st : State) :
  Init_ready env st = true ->
  exists st',
    InitMoistureBalanceEMPD env st = Some st'
    /\ forall SurfNum surface,
         1 <= SurfNum <= TotSurfaces env ->
         elem (Surface env) SurfNum = Some surface ->
         HeatTransSurf surface = true ->
         exists humrat rho,
           elem (ZoneAirHumRat env) (Zone surface) = Some humrat
           /\ elem (RhoVaporAirIn env) SurfNum = Some rho
           /\ get st' RVSurfaceOld SurfNum = Some humrat
           /\ get st' RVSurface SurfNum = Some humrat
           /\ get st' RVSurfLayer SurfNum = Some rho
           /\ get st' RVSurfLayerOld SurfNum = Some rho
           /\ get st' RVDeepLayer SurfNum = Some rho
           /\ get st' RVdeepOld SurfNum = Some rho
           /\ get st' RVwall SurfNum = Some rho
           /\ get st' HMSurfaceLayer SurfNum
              = Some (if (humrat =? 0)%float then 0.003%float else 0.0003%float)
           /\ get st' MassFluxSurfaceLayer SurfNum = Some 0%float
           /\ get st' MassFluxDeepLayer SurfNum = Some 0%float
           /\ get st' MassFluxZone SurfNum = Some 0%float.
Proof.
  intros Hready. destruct (Init_total env st Hready) as [st' H].
  exists st'. split; [exact H|].
  intros SurfNum surface Hi Hs HT.
  exact (Init_seeds env st st' SurfNum surface H Hi Hs HT).
Qed.

(** The seeding on the first use of the sample model, zone humidity ratio
    0.008 and incoming vapor density 0.0095. *)
Lemma InitMoistureBalanceEMPD_seeds_sample :
  exists st',
    InitMoistureBalanceEMPD (Sample.environment true 0.008 0.0095) Sample.initial
    = Some st'
    /\ forall SurfNum surface,
         1 <= SurfNum <= 4 ->
         elem Sample.surfaces SurfNum = Some surface ->
         HeatTransSurf surface = true ->
         exists humrat rho,
           elem [0.008%float] (Zone surface) = Some humrat
           /\ elem [0.0095; 0.0095; 0.0095; 0.0095]%float SurfNum = Some rho
           /\ get st' RVSurfaceOld SurfNum = Some humrat
           /\ get st' RVSurface SurfNum = Some humrat
           /\ get st' RVSurfLayer SurfNum = Some rho
           /\ get st' RVSurfLayerOld SurfNum = Some rho
           /\ get st' RVDeepLayer SurfNum = Some rho
           /\ get st' RVdeepOld SurfNum = Some rho
           /\ get st' RVwall SurfNum = Some rho
           /\ get st' HMSurfaceLayer SurfNum
              = Some (if (humrat =? 0)%float then 0.003%float else 0.0003%float)
           /\ get st' MassFluxSurfaceLayer SurfNum = Some 0%float
           /\ get st' MassFluxDeepLayer SurfNum = Some 0%float
           /\ get st' MassFluxZone SurfNum = Some 0%float.
Proof.
  apply (InitMoistureBalanceEMPD_seeds_every_heat_transfer_surface
           (Sample.environment true 0.008 0.0095) Sample.initial).
  reflexivity.
Defined.

(** C6, as the code has it.  The report variables are set to their
    defaults (vapor density and humidity ratio 0.015, relative humidity 0,
    latent heat flux 0) by the first run of [InitMoistureBalanceEMPD] only:
    that run clears [InitEnvrnFlag], and a run that finds it cleared, as at
    the start of every later environment, leaves the four arrays as they
    are. *)
Theorem report_variables_reset_on_first_use_only
  (env : Environment) (st : State) :
  Init_ready env st = true ->
  exists st',
    InitMoistureBalanceEMPD env st = Some st'
    /\ InitEnvrnFlag st' = false
    /\ (InitEnvrnFlag st = true ->
        forall i, 1 <= i <= TotSurfaces env ->
          get st' RhoVapEMPD i = Some 0.015%float
          /\ get st' WSurfEMPD i = Some 0.015%float
          /\ get st' RHEMPD i = Some 0.0%float
          /\ get st' HeatFluxLatent i = Some 0.0%float)
    /\ (InitEnvrnFlag st = false ->
        arrays st' RhoVapEMPD = arrays st RhoVapEMPD
        /\ arrays st' WSurfEMPD = arrays st WSurfEMPD
        /\ arrays st' RHEMPD = arrays st RHEMPD
        /\ arrays st' HeatFluxLatent = arrays st HeatFluxLatent).
Proof.
  intros Hready. destruct (Init_total env st Hready) as [st' H].
  exists st'. split; [exact H|]. split; [|split].
  - apply Init_Some in H. destruct H as [st0 [st1 H]]. tauto.
  - intros F i Hi.
    repeat split; eapply Init_first_use_report; eauto; reflexivity.
  - intros F.
    repeat split; eapply Init_later_report; eauto; simpl; discriminate.
Qed.






(** C7, what the code does.  [CloseMoistureBalanceEMPD] deallocates
    seven of the fifteen arrays [InitMoistureBalanceEMPD] allocates; the
    three report arrays, [RVwall], [HMSurfaceLayer] and the three mass
    flux arrays stay as they are. *)
Theorem CloseMoistureBalanceEMPD_deallocates_seven_of_fifteen (st : State) :
  (arrays (CloseMoistureBalanceEMPD st) RVSurfaceOld = None
   /\ arrays (CloseMoistureBalanceEMPD st) RVSurface = None
   /\ arrays (CloseMoistureBalanceEMPD st) HeatFluxLatent = None
   /\ arrays (CloseMoistureBalanceEMPD st) RVSurfLayer = None
   /\ arrays (CloseMoistureBalanceEMPD st) RVSurfLayerOld = None
   /\ arrays (CloseMoistureBalanceEMPD st) RVDeepLayer = None
   /\ arrays (CloseMoistureBalanceEMPD st) RVdeepOld = None)
  /\ (arrays (CloseMoistureBalanceEMPD st) RhoVapEMPD = arrays st RhoVapEMPD
      /\ arrays (CloseMoistureBalanceEMPD st) WSurfEMPD = arrays st WSurfEMPD
      /\ arrays (CloseMoistureBalanceEMPD st) RHEMPD = arrays st RHEMPD
      /\ arrays (CloseMoistureBalanceEMPD st) RVwall = arrays st RVwall
      /\ arrays (CloseMoistureBalanceEMPD st) HMSurfaceLayer = arrays st HMSurfaceLayer
      /\ arrays (CloseMoistureBalanceEMPD st) MassFluxSurfaceLayer
         = arrays st MassFluxSurfaceLayer
      /\ arrays (CloseMoistureBalanceEMPD st) MassFluxDeepLayer
         = arrays st MassFluxDeepLayer
      /\ arrays (CloseMoistureBalanceEMPD st) MassFluxZone = arrays st MassFluxZone).
Proof. repeat split; reflexivity. Qed.

(** The sample model after its first use and the teardown: eight arrays
    of four elements are still allocated. *)
Example arrays_left_after_Close :
  map (fun id => size (arrays (CloseMoistureBalanceEMPD (fst Sample.first_call)) id))
    allocated_by_Init
  = [None; None; None; Some 4%nat; Some 4%nat; Some 4%nat; None; None; None; None;
     Some 4%nat; Some 4%nat; Some 4%nat; Some 4%nat; Some 4%nat].
Proof. vm_compute. reflexivity. Qed.

(** The second environment of a run of the sample model: the report
    variables keep what the first environment left. *)
Lemma report_variables_reset_on_first_use_only_sample :
  exists st',
    InitMoistureBalanceEMPD (Sample.environment true 0.008 0.0095)
      (Sample.uniform 0.5 true) = Some st'
    /\ InitEnvrnFlag st' = false
    /\ arrays st' RhoVapEMPD = Some [0.5; 0.5; 0.5; 0.5]%float
    /\ arrays st' WSurfEMPD = Some [0.5; 0.5; 0.5; 0.5]%float
    /\ arrays st' RHEMPD = Some [0.5; 0.5; 0.5; 0.5]%float
    /\ arrays st' HeatFluxLatent = Some [0.5; 0.5; 0.5; 0.5]%float.
Proof.
  destruct (report_variables_reset_on_first_use_only
              (Sample.environment true 0.008 0.0095) (Sample.uniform 0.5 true)
              eq_refl) as [st' [H [F [_ K]]]].
  exists st'. split; [exact H|]. split; [exact F|]. exact (K eq_refl).
Defined.

(** Against C6 as stated: three calls on the sample model.  The first,
    in the first environment, initializes; the second, the flag clear,
    computes the balance of surface 1; the third starts a new environment
    with an incoming vapor density of 0.012.  The third call seeds again
    (the old layer slot of surface 1 holds 0.012), and the report
    variables of surface 1 are not back at 0.015 and 0. *)
Lemma report_variables_not_reset_in_second_environment :
  exists st3 TempSat3 rhov rh,
    run Sample.externals
      [{| call_env := Sample.environment true 0.008 0.0095; call_SurfNum := 1;
          call_TempSurfIn := 22; call_TempZone := 24 |};
       {| call_env := Sample.environment false 0.008 0.0095; call_SurfNum := 1;
          call_TempSurfIn := 22; call_TempZone := 24 |};
       {| call_env := Sample.environment true 0.008 0.012; call_SurfNum := 2;
          call_TempSurfIn := 22; call_TempZone := 24 |}] Sample.initial 0
    = Some (st3, TempSat3)
    /\ get st3 RVSurfLayerOld 1 = Some 0.012%float
    /\ get st3 RhoVapEMPD 1 = Some rhov
    /\ (rhov =? 0.015)%float = false
    /\ get st3 RHEMPD 1 = Some rh
    /\ (rh =? 0)%float = false.
Proof.
  do 4 eexists. evaluate.
Qed.

(** C1, as the code has it.  On a heat-transfer surface whose inside
    material has a vapor resistance factor not above zero, the call
    returns, sets [RVSurface( SurfNum )] to exactly the psychrometric
    conversion of the zone temperature and the zone humidity ratio at the
    outdoor barometric pressure, and besides it and the zeroed latent heat
    flux leaves every array as lines 443 to 450 left it: unchanged from
    the entry of the call when the call triggers no reset. *)
Theorem not_moisture_active_sets_rv_surface_only (X : Externals)
  (env : Environment) (SurfNum : Z) (TempSurfIn TempZone TempSat0 : float)
  (st0 st : State) (r : References) (material : MaterialProperties)
  (humrat : float) :
  reset_coupling env st0 = Some st ->
  bind_references env st SurfNum = Some r ->
  HeatTransSurf (surface r) = true ->
  inside_material env st (surface r) = Some material ->
  (EMPDmu material <=? 0.0)%float = true ->
  elem (ZoneAirHumRat env) (Zone (surface r)) = Some humrat ->
  exists st',
    CalcMoistureBalanceEMPD X env SurfNum TempSurfIn TempZone TempSat0 st0
    = Some (st', TempSat0)
    /\ get st' RVSurface SurfNum
       = Some (PsyRhovFnTdbWPb X TempZone humrat (OutBaroPress env))
    /\ (forall id, id <> RVSurface -> id <> HeatFluxLatent ->
        arrays st' id = arrays st id)
    /\ (BeginEnvrnFlag env && OneTimeFlag st0 = false ->
        arrays st' RVSurfLayer = arrays st0 RVSurfLayer
        /\ arrays st' RVDeepLayer = arrays st0 RVDeepLayer
        /\ arrays st' RVSurfLayerOld = arrays st0 RVSurfLayerOld
        /\ arrays st' RVdeepOld = arrays st0 RVdeepOld).
Proof.
  intros Hreset Hr HT Hm Hmu Hz.
  destruct (CalcBody_not_moisture_active X env SurfNum TempSurfIn TempZone
              TempSat0 st r material humrat Hr HT Hm Hmu Hz)
    as [st1 [st' [E1 [E2 Hbody]]]].
  exists st'.
  assert (K : forall id, id <> RVSurface -> id <> HeatFluxLatent ->
                         arrays st' id = arrays st id).
  { intros id H1 H2.
    rewrite (arrays_set_other _ id _ _ _ _ E2) by congruence.
    apply (arrays_set_other _ id _ _ _ _ E1). congruence. }
  split; [unfold CalcMoistureBalanceEMPD; rewrite Hreset; exact Hbody|].
  split; [exact (get_set_same _ _ _ _ _ E2)|].
  split; [exact K|].
  intros Hquiet. destruct (reset_coupling_quiet _ _ _ Hreset Hquiet) as [Ha _].
  rewrite <- Ha. repeat split; apply K; discriminate.
Qed.

(** The wall of [inert] in the sample model, no new environment. *)
Lemma not_moisture_active_sample :
  exists st',
    CalcMoistureBalanceEMPD Sample.externals (Sample.environment false 0.008 0.01)
      2 22 24 0 (Sample.uniform 0.01 true) = Some (st', 0%float)
    /\ get st' RVSurface 2
       = Some (PsyRhovFnTdbWPb Sample.externals 24 0.008 101325)
    /\ arrays st' RVSurfLayer = Some [0.01; 0.01; 0.01; 0.01]%float
    /\ arrays st' RVDeepLayer = Some [0.01; 0.01; 0.01; 0.01]%float
    /\ arrays st' RVSurfLayerOld = Some [0.01; 0.01; 0.01; 0.01]%float
    /\ arrays st' RVdeepOld = Some [0.01; 0.01; 0.01; 0.01]%float.
Proof.
  destruct (not_moisture_active_sets_rv_surface_only Sample.externals
              (Sample.environment false 0.008 0.01) 2 22 24 0
              (Sample.uniform 0.01 true) (Sample.uniform 0.01 true)
              {| surface := {| HeatTransSurf := true; Zone := 1; Construction := 2 |};
                 rv_surface := 0.01; rv_surface_old := 0.01;
                 h_mass_conv_in_fd := 0.003; rho_vapor_air_in := 0.01;
                 rv_surf_layer := 0.01; rv_deep_layer := 0.01;
                 rv_deep_old := 0.01; rv_surf_layer_old := 0.01 |}
              Sample.inert 0.008%float
              eq_refl eq_refl eq_refl eq_refl eq_refl eq_refl)
    as [st' [H [G [_ K]]]].
  exists st'. split; [exact H|]. split; [exact G|]. exact (K eq_refl).
Defined.

(** Against C1 as stated: the wall of [inert] in the sample model, at the
    first call of a second environment whose incoming vapor density is
    0.02.  The layer slots held 0.01 before the call and hold the seed 0.02
    after it. *)
Lemma not_moisture_active_call_that_resets :
  exists st' TempSat',
    CalcMoistureBalanceEMPD Sample.externals (Sample.environment true 0.008 0.02)
      2 22 24 0 (Sample.uniform 0.01 true) = Some (st', TempSat')
    /\ get (Sample.uniform 0.01 true) RVSurfLayer 2 = Some 0.01%float
    /\ get st' RVSurfLayer 2 = Some 0.02%float
    /\ get (Sample.uniform 0.01 true) RVdeepOld 2 = Some 0.01%float
    /\ get st' RVdeepOld 2 = Some 0.02%float
    /\ (0.01 =? 0.02)%float = false.
Proof.
  do 2 eexists. evaluate.
Qed.




(** A wall of [gypsum] in the sample model, every array at 0.01, as the
    call finds it when no reset is due. *)
Lemma gypsum_wall_references :
  bind_references (Sample.environment false 0.008 0.01) (Sample.uniform 0.01 true) 1
  = Some {| surface := {| HeatTransSurf := true; Zone := 1; Construction := 1 |};
            rv_surface := 0.01; rv_surface_old := 0.01;
            h_mass_conv_in_fd := 0.003; rho_vapor_air_in := 0.01;
            rv_surf_layer := 0.01; rv_deep_layer := 0.01;
            rv_deep_old := 0.01; rv_surf_layer_old := 0.01 |}.
Proof. reflexivity. Qed.

(** C4.  On the moisture-active path the slope of the sorption curve is
    [a b RH^(b-1) + c c d RH^(d-1)] at the average relative humidity, the
    one of the mean of the current and the previous surface vapor density
    at the inside surface temperature; [c] enters squared and [a] does
    not.  It is this slope that divides the flux in the relative humidity
    the call reports. *)
Theorem sorption_slope_at_average_relative_humidity (X : Externals)
  (env : Environment) (SurfNum : Z) (TempSurfIn TempZone TempSat0 : float)
  (st0 st : State) (r : References) (material : MaterialProperties) :
  reset_coupling env st0 = Some st ->
  bind_references env st SurfNum = Some r ->
  HeatTransSurf (surface r) = true ->
  inside_material env st (surface r) = Some material ->
  (EMPDmu material <=? 0.0)%float = false ->
  report_bound st SurfNum = true ->
  let v := balance X env material TempSurfIn r in
  RHaver v
  = ((rv_surface r + rv_surface_old r) * 0.5 * 461.52
     * (TempSurfIn + KelvinConv env)
     * exp X (-23.7093 + 4111.0 / (TempSurfIn + 237.7)))%float
  /\ dU_dRH v
     = sorption_slope_spec X (MoistACoeff material) (MoistBCoeff material)
         (MoistCCoeff material) (MoistDCoeff material) (RHaver v)
  /\ exists st',
       CalcMoistureBalanceEMPD X env SurfNum TempSurfIn TempZone TempSat0 st0
       = Some (st', TempSat v)
       /\ get st' RHEMPD SurfNum
          = Some ((PsyRhFnTdbRhov X TempSurfIn (rv_surf_layer_old r)
                   + TimeStepZone env * 3600.0
                     * (- mass_flux_surf_layer v
                        / (Density material * EMPDSurfaceDepth material
                           * sorption_slope_spec X (MoistACoeff material)
                               (MoistBCoeff material) (MoistCCoeff material)
                               (MoistDCoeff material) (RHaver v))))
                  * 100.0)%float.
Proof.
  intros Hreset Hr HT Hm Hmu Hrep v.
  split; [reflexivity|]. split; [reflexivity|].
  destruct (Calc_moisture_active X env SurfNum TempSurfIn TempZone TempSat0
              st0 st r material Hreset Hr HT Hm Hmu Hrep) as [st' [H G]].
  exists st'. split; [exact H|].
  apply G. simpl. tauto.
Qed.

Lemma sorption_slope_sample :
  dU_dRH (balance Sample.externals (Sample.environment false 0.008 0.01)
            Sample.gypsum 22
            {| surface := {| HeatTransSurf := true; Zone := 1; Construction := 1 |};
               rv_surface := 0.01; rv_surface_old := 0.01;
               h_mass_conv_in_fd := 0.003; rho_vapor_air_in := 0.01;
               rv_surf_layer := 0.01; rv_deep_layer := 0.01;
               rv_deep_old := 0.01; rv_surf_layer_old := 0.01 |})
  = sorption_slope_spec Sample.externals 0.02 1.5 0.01 3
      (RHaver (balance Sample.externals (Sample.environment false 0.008 0.01)
                 Sample.gypsum 22
                 {| surface := {| HeatTransSurf := true; Zone := 1;
                                  Construction := 1 |};
                    rv_surface := 0.01; rv_surface_old := 0.01;
                    h_mass_conv_in_fd := 0.003; rho_vapor_air_in := 0.01;
                    rv_surf_layer := 0.01; rv_deep_layer := 0.01;
                    rv_deep_old := 0.01; rv_surf_layer_old := 0.01 |})).
Proof.
  exact (proj1 (proj2 (sorption_slope_at_average_relative_humidity
                         Sample.externals (Sample.environment false 0.008 0.01)
                         1 22 24 0 (Sample.uniform 0.01 true)
                         (Sample.uniform 0.01 true) _ Sample.gypsum
                         eq_refl gypsum_wall_references eq_refl eq_refl
                         eq_refl eq_refl))).
Defined.







(** The commit of a timestep.  [UpdateMoistureBalanceEMPD] copies the
    current vapor density of the surface, of the deep layer and of the
    surface layer into their old slots and leaves the current values in
    place. *)
Theorem UpdateMoistureBalanceEMPD_commits (SurfNum : Z) (st : State)
  (rvs rvd rvl : float) :
  get st RVSurface SurfNum = Some rvs ->
  get st RVDeepLayer SurfNum = Some rvd ->
  get st RVSurfLayer SurfNum = Some rvl ->
  in_range (arrays st RVSurfaceOld) SurfNum = true ->
  in_range (arrays st RVdeepOld) SurfNum = true ->
  in_range (arrays st RVSurfLayerOld) SurfNum = true ->
  exists st',
    UpdateMoistureBalanceEMPD SurfNum st = Some st'
    /\ get st' RVSurfaceOld SurfNum = Some rvs
    /\ get st' RVdeepOld SurfNum = Some rvd
    /\ get st' RVSurfLayerOld SurfNum = Some rvl
    /\ arrays st' RVSurface = arrays st RVSurface
    /\ arrays st' RVDeepLayer = arrays st RVDeepLayer
    /\ arrays st' RVSurfLayer = arrays st RVSurfLayer.
Proof.
  intros Hs Hd Hl R1 R2 R3. unfold UpdateMoistureBalanceEMPD.
  rewrite Hs. cbn [bind].
  destruct (set_total RVSurfaceOld SurfNum rvs st R1) as [st1 E1].
  rewrite E1. cbn [bind].
  assert (A1 : forall id, id <> RVSurfaceOld -> arrays st1 id = arrays st id).
  { intros id Hid. eapply arrays_set_other; eauto. }
  unfold get at 1. rewrite A1 by discriminate. fold (get st RVDeepLayer SurfNum).
  rewrite Hd. cbn [bind].
  destruct (set_total RVdeepOld SurfNum rvd st1) as [st2 E2].
  { rewrite A1 by discriminate. exact R2. }
  rewrite E2. cbn [bind].
  assert (A2 : forall id, id <> RVdeepOld -> arrays st2 id = arrays st1 id).
  { intros id Hid. eapply arrays_set_other; eauto. }
  unfold get at 1. rewrite A2, A1 by discriminate.
  fold (get st RVSurfLayer SurfNum). rewrite Hl. cbn [bind].
  destruct (set_total RVSurfLayerOld SurfNum rvl st2) as [st3 E3].
  { rewrite A2, A1 by discriminate. exact R3. }
  exists st3. split; [exact E3|].
  assert (A3 : forall id, id <> RVSurfLayerOld -> arrays st3 id = arrays st2 id).
  { intros id Hid. eapply arrays_set_other; eauto. }
  repeat split.
  - unfold get. rewrite A3, A2 by discriminate.
    exact (get_set_same _ _ _ _ _ E1).
  - unfold get. rewrite A3 by discriminate. exact (get_set_same _ _ _ _ _ E2).
  - exact (get_set_same _ _ _ _ _ E3).
  - rewrite A3, A2, A1 by discriminate. reflexivity.
  - rewrite A3, A2, A1 by discriminate. reflexivity.
  - rewrite A3, A2, A1 by discriminate. reflexivity.
Qed.

(** The commit of the first wall of the sample model, its deep layer at
    0.02 and everything else at 0.01. *)
Lemma UpdateMoistureBalanceEMPD_commits_sample :
  exists st',
    UpdateMoistureBalanceEMPD 1 (Sample.uniform_but 0.01 RVDeepLayer 0.02)
    = Some st'
    /\ get st' RVSurfaceOld 1 = Some 0.01%float
    /\ get st' RVdeepOld 1 = Some 0.02%float
    /\ get st' RVSurfLayerOld 1 = Some 0.01%float.
Proof.
  destruct (UpdateMoistureBalanceEMPD_commits 1
              (Sample.uniform_but 0.01 RVDeepLayer 0.02)
              0.01%float 0.02%float 0.01%float
              eq_refl eq_refl eq_refl eq_refl eq_refl eq_refl)
    as [st' [H [G1 [G2 [G3 _]]]]].
  exists st'. repeat split; assumption.
Defined.

(** * More of the module *)

(** ** Sizes of the arrays *)

Lemma size_set (id id' : ArrayId) (i : Z) (v : float) (st st' : State) :
  set id i v st = Some st' -> size (arrays st' id') = size (arrays st id').
Proof.
  intros H. apply set_Some in H. destruct H as [l [l' [Hl [Ha ->]]]].
  destruct (ArrayId_eq_dec id id') as [<-|Hid].
  - rewrite arrays_with_array_same, Hl. simpl.
    apply assign_elem_Some in Ha. destruct Ha as [_ ->].
    rewrite length_replace_nth. reflexivity.
  - rewrite arrays_with_array_other by exact Hid. reflexivity.
Qed.

Lemma size_assign_all (i : Z) (w : list (ArrayId * float)) (st st' : State) :
  assign_all i w st = Some st' ->
  forall id, size (arrays st' id) = size (arrays st id).
Proof.
  revert st. induction w as [|[id0 v0] w IH]; simpl; intros st H id.
  - inversion H. reflexivity.
  - bind_inv H. rewrite (IH _ H id). eapply size_set; eauto.
Qed.

Lemma size_for_each_seed (env : Environment) (idx : list Z) (st st' : State) :
  for_each idx (seed_surface env) st = Some st' ->
  forall id, size (arrays st' id) = size (arrays st id).
Proof.
  revert st. induction idx as [|i idx IH]; simpl; intros st H id.
  - inversion H. reflexivity.
  - bind_inv H. rewrite (IH _ H id).
    apply seed_surface_cases in E.
    destruct E as [[s [_ [_ ->]]] | [s [h [r [w [_ [_ [_ [_ [_ [Ha _]]]]]]]]]]].
    + reflexivity.
    + eapply size_assign_all; eauto.
Qed.

(** The first run of [InitMoistureBalanceEMPD] leaves each of the fifteen
    arrays allocated with one element per surface ([TotSurfaces] of them,
    none when that is not positive); a later run keeps the size of every
    array, allocated or not. *)
Theorem InitMoistureBalanceEMPD_array_sizes (env : Environment) (st st' : State) :
  InitMoistureBalanceEMPD env st = Some st' ->
  forall id,
    size (arrays st' id)
    = if InitEnvrnFlag st then Some (Z.to_nat (TotSurfaces env))
      else size (arrays st id).
Proof.
  intros H id. apply Init_Some in H.
  destruct H as [st0 [st1 [Hloop [Harr [Hlater [Hfirst _]]]]]].
  rewrite Harr. pose proof (size_for_each_seed _ _ _ _ Hloop id) as Hsize.
  destruct (InitEnvrnFlag st).
  - rewrite arrays_init_report.
    assert (Hs1 : size (arrays st1 id) = Some (Z.to_nat (TotSurfaces env))).
    { rewrite Hsize, (Hfirst eq_refl), arrays_after_allocation. simpl.
      rewrite length_map, length_range. reflexivity. }
    destruct (report_default id); [|exact Hs1].
    destruct (arrays st1 id) as [l|]; simpl in *; [|discriminate].
    rewrite length_map. exact Hs1.
  - destruct (Hlater eq_refl) as [-> _]. exact Hsize.
Qed.

Lemma InitMoistureBalanceEMPD_array_sizes_sample :
  exists st',
    InitMoistureBalanceEMPD (Sample.environment true 0.008 0.0095) Sample.initial
    = Some st'
    /\ size (arrays st' RVSurface) = Some 4%nat
    /\ size (arrays st' RVwall) = Some 4%nat
    /\ size (arrays st' RHEMPD) = Some 4%nat.
Proof.
  destruct (Init_total (Sample.environment true 0.008 0.0095) Sample.initial
              eq_refl) as [st' H].
  exists st'. split; [exact H|].
  repeat split;
    exact (InitMoistureBalanceEMPD_array_sizes _ _ _ H _).
Defined.

(** ** What a call leaves alone *)

(** A call that triggers no reset writes only elements [SurfNum]: every
    element of every other surface is as before, and so are the arrays of
    the previous timestep, the material table and [InitEnvrnFlag]. *)
Theorem CalcMoistureBalanceEMPD_touches_its_surface_only (X : Externals)
  (env : Environment) (SurfNum : Z) (TempSurfIn TempZone TempSat0 : float)
  (st st' : State) (TempSat' : float) :
  BeginEnvrnFlag env && OneTimeFlag st = false ->
  CalcMoistureBalanceEMPD X env SurfNum TempSurfIn TempZone TempSat0 st
  = Some (st', TempSat') ->
  (forall id j, j <> SurfNum -> get st' id j = get st id j)
  /\ arrays st' RVSurfaceOld = arrays st RVSurfaceOld
  /\ arrays st' RVSurfLayerOld = arrays st RVSurfLayerOld
  /\ arrays st' RVdeepOld = arrays st RVdeepOld
  /\ arrays st' RVwall = arrays st RVwall
  /\ Material st' = Material st
  /\ InitEnvrnFlag st' = InitEnvrnFlag st.
Proof.
  intros Hquiet H. unfold CalcMoistureBalanceEMPD in H. bind_inv H.
  destruct (reset_coupling_quiet _ _ _ E Hquiet) as [Ha [Hm Hf]].
  destruct (CalcBody_frame _ _ _ _ _ _ _ _ _ H) as [K [J [M [F _]]]].
  split.
  - intros id j Hj. rewrite (J id j Hj). unfold get. rewrite Ha. reflexivity.
  - rewrite <- Ha. repeat split; try (apply K; simpl; tauto); congruence.
Qed.

Lemma CalcMoistureBalanceEMPD_touches_its_surface_only_sample :
  (forall id j, j <> 1 ->
     get (fst (Sample.returned
                 (CalcMoistureBalanceEMPD Sample.externals
                    (Sample.environment false 0.008 0.0095) 1 22 24 0
                    (Sample.uniform 0.01 true)))) id j
     = get (Sample.uniform 0.01 true) id j)
  /\ arrays (fst (Sample.returned
                    (CalcMoistureBalanceEMPD Sample.externals
                       (Sample.environment false 0.008 0.0095) 1 22 24 0
                       (Sample.uniform 0.01 true)))) RVdeepOld
     = Some [0.01; 0.01; 0.01; 0.01]%float.
Proof.
  assert (H : CalcMoistureBalanceEMPD Sample.externals
                (Sample.environment false 0.008 0.0095) 1 22 24 0
                (Sample.uniform 0.01 true)
              = Some (fst (Sample.returned
                             (CalcMoistureBalanceEMPD Sample.externals
                                (Sample.environment false 0.008 0.0095) 1 22 24 0
                                (Sample.uniform 0.01 true))),
                      snd (Sample.returned
                             (CalcMoistureBalanceEMPD Sample.externals
                                (Sample.environment false 0.008 0.0095) 1 22 24 0
                                (Sample.uniform 0.01 true)))))
    by (vm_compute; reflexivity).
  destruct (CalcMoistureBalanceEMPD_touches_its_surface_only Sample.externals
              (Sample.environment false 0.008 0.0095) 1 22 24 0
              (Sample.uniform 0.01 true) _ _ eq_refl H) as [J [_ [_ [K _]]]].
  split; [exact J | exact K].
Defined.

(** [UpdateMoistureBalanceEMPD] writes the three old slots of its surface
    and nothing else: no other array, no element of another surface, not
    the material table, no latch. *)
Theorem UpdateMoistureBalanceEMPD_touches_old_slots_only (SurfNum : Z)
  (st st' : State) :
  UpdateMoistureBalanceEMPD SurfNum st = Some st' ->
  (forall id, id <> RVSurfaceOld -> id <> RVdeepOld -> id <> RVSurfLayerOld ->
              arrays st' id = arrays st id)
  /\ (forall id j, j <> SurfNum -> get st' id j = get st id j)
  /\ Material st' = Material st
  /\ InitEnvrnFlag st' = InitEnvrnFlag st
  /\ OneTimeFlag st' = OneTimeFlag st.
Proof.
  unfold UpdateMoistureBalanceEMPD. intros H.
  bind_inv H. bind_inv H. rename a0 into st1.
  bind_inv H. bind_inv H. rename a1 into st2. bind_inv H.
  destruct (set_rest _ _ _ _ _ E0) as [M1 [F1 O1]].
  destruct (set_rest _ _ _ _ _ E2) as [M2 [F2 O2]].
  destruct (set_rest _ _ _ _ _ H) as [M3 [F3 O3]].
  split; [|split; [|repeat split; congruence]].
  - intros id H1 H2 H3.
    rewrite (arrays_set_other _ id _ _ _ _ H) by congruence.
    rewrite (arrays_set_other _ id _ _ _ _ E2) by congruence.
    apply (arrays_set_other _ id _ _ _ _ E0). congruence.
  - intros id j Hj.
    rewrite (get_set_other_index _ id _ _ _ _ _ H Hj).
    rewrite (get_set_other_index _ id _ _ _ _ _ E2 Hj).
    apply (get_set_other_index _ id _ _ _ _ _ E0 Hj).
Qed.

Lemma UpdateMoistureBalanceEMPD_touches_old_slots_only_sample :
  exists st',
    UpdateMoistureBalanceEMPD 2 (Sample.uniform 0.01 true) = Some st'
    /\ forall id j, j <> 2 -> get st' id j = get (Sample.uniform 0.01 true) id j.
Proof.
  destruct (UpdateMoistureBalanceEMPD 2 (Sample.uniform 0.01 true))
    as [st'|] eqn:H; [|vm_compute in H; discriminate].
  exists st'. split; [reflexivity|].
  exact (proj1 (proj2 (UpdateMoistureBalanceEMPD_touches_old_slots_only 2 _ _ H))).
Defined.

(** A run of [InitMoistureBalanceEMPD] after the first writes the seeded
    arrays at the heat-transfer surfaces and nothing else: the elements of
    a surface that transfers no heat, or whose number is not in 1 to
    [TotSurfaces], are as before, and so are the report arrays, the latent
    heat flux, the material table and the latches. *)
Theorem later_InitMoistureBalanceEMPD_seeds_only (env : Environment)
  (st st' : State) :
  InitEnvrnFlag st = false ->
  InitMoistureBalanceEMPD env st = Some st' ->
  (forall j,
     (~ 1 <= j <= TotSurfaces env
      \/ exists s, elem (Surface env) j = Some s /\ HeatTransSurf s = false) ->
     forall id, get st' id j = get st id j)
  /\ (forall id, ~ In id seeded_by_Init -> arrays st' id = arrays st id)
  /\ Material st' = Material st
  /\ InitEnvrnFlag st' = false
  /\ OneTimeFlag st' = OneTimeFlag st.
Proof.
  intros F H. rewrite (Init_later _ _ F) in H.
  destruct (for_each_seed_frame _ _ _ _ H) as [K [_ [M [F' O]]]].
  split; [|repeat split; try assumption; congruence].
  intros j Hj id. apply (for_each_seed_skips _ _ _ _ j H).
  destruct Hj as [Hj|Hj]; [left|right; exact Hj].
  intros Hin. apply In_range in Hin. tauto.
Qed.

Lemma later_InitMoistureBalanceEMPD_seeds_only_sample :
  exists st',
    InitMoistureBalanceEMPD (Sample.environment true 0.008 0.0095)
      (Sample.uniform 0.5 true) = Some st'
    /\ (forall id, get st' id 3 = Some 0.5%float)
    /\ arrays st' RHEMPD = Some [0.5; 0.5; 0.5; 0.5]%float.
Proof.
  destruct (Init_total (Sample.environment true 0.008 0.0095)
              (Sample.uniform 0.5 true) eq_refl) as [st' H].
  destruct (later_InitMoistureBalanceEMPD_seeds_only
              (Sample.environment true 0.008 0.0095) (Sample.uniform 0.5 true)
              st' eq_refl H) as [J [K _]].
  exists st'. split; [exact H|]. split.
  - intros id. rewrite (J 3); [reflexivity|].
    right. eexists. split; reflexivity.
  - rewrite K; [reflexivity|]. simpl. intuition discriminate.
Defined.

(** ** What the moisture-active path stores *)

(** After a call on the moisture-active path the stored fluxes balance:
    the flux out of the surface layer is the flux to the zone plus the
    flux into the deep layer; the latent heat flux is the flux to the zone
    times the heat of vaporization; the reported vapor density is the new
    one of the surface layer. *)
Theorem stored_fluxes_balance (X : Externals)
  (env : Environment) (SurfNum : Z) (TempSurfIn TempZone TempSat0 : float)
  (st0 st : State) (r : References) (material : MaterialProperties) :
  reset_coupling env st0 = Some st ->
  bind_references env st SurfNum = Some r ->
  HeatTransSurf (surface r) = true ->
  inside_material env st (surface r) = Some material ->
  (EMPDmu material <=? 0.0)%float = false ->
  report_bound st SurfNum = true ->
  exists st' TempSat' to_zone to_deep,
    CalcMoistureBalanceEMPD X env SurfNum TempSurfIn TempZone TempSat0 st0
    = Some (st', TempSat')
    /\ get st' MassFluxZone SurfNum = Some to_zone
    /\ get st' MassFluxDeepLayer SurfNum = Some to_deep
    /\ get st' MassFluxSurfaceLayer SurfNum = Some (to_zone + to_deep)%float
    /\ get st' HeatFluxLatent SurfNum = Some (to_zone * Lam env)%float
    /\ get st' RhoVapEMPD SurfNum = get st' RVSurfLayer SurfNum.
Proof.
  intros Hreset Hr HT Hm Hmu Hrep.
  destruct (Calc_moisture_active X env SurfNum TempSurfIn TempZone TempSat0
              st0 st r material Hreset Hr HT Hm Hmu Hrep) as [st' [H G]].
  exists st', (TempSat (balance X env material TempSurfIn r)),
    (mass_flux_zone (balance X env material TempSurfIn r)),
    (mass_flux_deep_layer (balance X env material TempSurfIn r)).
  split; [exact H|].
  repeat split; try (apply G; simpl; tauto).
  rewrite (G RhoVapEMPD _ ltac:(simpl; tauto)).
  rewrite (G RVSurfLayer _ ltac:(simpl; tauto)). reflexivity.
Qed.

Lemma stored_fluxes_balance_sample :
  exists st' TempSat' to_zone to_deep,
    CalcMoistureBalanceEMPD Sample.externals (Sample.environment false 0.008 0.0095)
      4 22 24 0 (Sample.uniform 0.01 true) = Some (st', TempSat')
    /\ get st' MassFluxZone 4 = Some to_zone
    /\ get st' MassFluxDeepLayer 4 = Some to_deep
    /\ get st' MassFluxSurfaceLayer 4 = Some (to_zone + to_deep)%float
    /\ get st' HeatFluxLatent 4 = Some (to_zone * 2500000)%float
    /\ get st' RhoVapEMPD 4 = get st' RVSurfLayer 4.
Proof.
  exact (stored_fluxes_balance Sample.externals
           (Sample.environment false 0.008 0.0095) 4 22 24 0
           (Sample.uniform 0.01 true) (Sample.uniform 0.01 true)
           {| surface := {| HeatTransSurf := true; Zone := 1; Construction := 3 |};
              rv_surface := 0.01; rv_surface_old := 0.01;
              h_mass_conv_in_fd := 0.003; rho_vapor_air_in := 0.0095;
              rv_surf_layer := 0.01; rv_deep_layer := 0.01;
              rv_deep_old := 0.01; rv_surf_layer_old := 0.01 |}
           Sample.gypsum_deep
           eq_refl eq_refl eq_refl eq_refl eq_refl eq_refl).
Defined.

(** ** Seeding twice *)

Lemma replace_nth_same_value {A : Type} (l : list A) (n : nat) (v : A) :
  nth_error l n = Some v -> replace_nth n v l = l.
Proof.
  revert n. induction l as [|h t IH]; intros [|n] H; simpl in *;
    try discriminate.
  - inversion H. reflexivity.
  - rewrite (IH n H). reflexivity.
Qed.

Lemma set_same_value (id : ArrayId) (i : Z) (v : float) (st : State) :
  get st id i = Some v ->
  exists st', set id i v st = Some st'
              /\ forall id', arrays st' id' = arrays st id'.
Proof.
  unfold get, set. destruct (arrays st id) as [l|] eqn:Hl; [|discriminate].
  cbn [bind]. intros H. unfold assign_elem.
  rewrite (elem_Some_in_bounds _ _ _ H). cbn [bind].
  eexists. split; [reflexivity|]. intros id'.
  unfold elem in H. destruct (1 <=? i); [|discriminate].
  rewrite (replace_nth_same_value _ _ _ H).
  destruct (ArrayId_eq_dec id id') as [<-|Hid].
  - rewrite arrays_with_array_same. symmetry. exact Hl.
  - apply arrays_with_array_other. exact Hid.
Qed.

Lemma assign_all_same_values (i : Z) (w : list (ArrayId * float)) (st : State) :
  (forall id v, In (id, v) w -> get st id i = Some v) ->
  exists st', assign_all i w st = Some st'
              /\ forall id, arrays st' id = arrays st id.
Proof.
  revert st. induction w as [|[id0 v0] w IH]; simpl; intros st H.
  - eauto.
  - destruct (set_same_value id0 i v0 st) as [st1 [E K]]; [apply H; auto|].
    rewrite E. cbn [bind].
    destruct (IH st1) as [st' [E' K']].
    { intros id v Hin. unfold get. rewrite K. apply H. auto. }
    exists st'. split; [exact E'|]. intros id. rewrite K', K. reflexivity.
Qed.

Lemma seed_surface_again (env : Environment) (i : Z) (st : State) (s : SurfaceData) :
  elem (Surface env) i = Some s ->
  (HeatTransSurf s = true ->
   exists humrat rho,
     elem (ZoneAirHumRat env) (Zone s) = Some humrat
     /\ elem (RhoVaporAirIn env) i = Some rho
     /\ seeded st i humrat rho) ->
  exists st', seed_surface env i st = Some st'
              /\ forall id, arrays st' id = arrays st id.
Proof.
  intros Hs Hseed. unfold seed_surface. rewrite Hs. cbn [bind].
  destruct (HeatTransSurf s); cbn [negb]; [|eauto].
  destruct (Hseed eq_refl) as [humrat [rho [Hh [Hr Hsd]]]].
  rewrite Hh. cbn [bind]. unfold seeded in Hsd.
  destruct (humrat =? 0)%float; rewrite Hr; cbn [bind];
    apply assign_all_same_values; intros id v Hin; simpl in Hin;
    repeat (destruct Hin as [Hin|Hin]; [inversion Hin; subst; tauto|]);
    contradiction.
Qed.

Lemma for_each_seed_again (env : Environment) (idx : list Z) (st : State) :
  (forall i, In i idx ->
     exists s, elem (Surface env) i = Some s
               /\ (HeatTransSurf s = true ->
                   exists humrat rho,
                     elem (ZoneAirHumRat env) (Zone s) = Some humrat
                     /\ elem (RhoVaporAirIn env) i = Some rho
                     /\ seeded st i humrat rho)) ->
  exists st', for_each idx (seed_surface env) st = Some st'
              /\ forall id, arrays st' id = arrays st id.
Proof.
  revert st. induction idx as [|i idx IH]; simpl; intros st H.
  - eauto.
  - destruct (H i (or_introl eq_refl)) as [s [Hs Hseed]].
    destruct (seed_surface_again env i st s Hs Hseed) as [st1 [E K]].
    rewrite E. cbn [bind].
    destruct (IH st1) as [st' [E' K']].
    { intros j Hj. destruct (H j (or_intror Hj)) as [sj [Hsj Hseedj]].
      exists sj. split; [exact Hsj|]. intros HT.
      destruct (Hseedj HT) as [h [r [Hh [Hr Hsd]]]].
      exists h, r. split; [exact Hh|]. split; [exact Hr|].
      unfold seeded, get in *. rewrite !K. exact Hsd. }
    exists st'. split; [exact E'|]. intros id. rewrite K', K. reflexivity.
Qed.

Lemma for_each_seed_reads_surfaces (env : Environment) (idx : list Z)
  (st st' : State) :
  for_each idx (seed_surface env) st = Some st' ->
  forall i, In i idx -> exists s, elem (Surface env) i = Some s.
Proof.
  revert st. induction idx as [|k idx IH]; simpl; intros st H i Hin.
  - contradiction.
  - bind_inv H. destruct Hin as [->|Hin]; [|eauto].
    apply seed_surface_cases in E.
    destruct E as [[s [Hs _]] | [s [h [r [w [Hs _]]]]]]; eauto.
Qed.

(** Seeding is idempotent: when a run of [InitMoistureBalanceEMPD] has
    returned, a next run under the same conditions returns too and leaves
    every array, the material table and the latches as the first run left
    them. *)
Theorem InitMoistureBalanceEMPD_twice (env : Environment) (st st1 : State) :
  InitMoistureBalanceEMPD env st = Some st1 ->
  exists st2,
    InitMoistureBalanceEMPD env st1 = Some st2
    /\ (forall id, arrays st2 id = arrays st1 id)
    /\ Material st2 = Material st1
    /\ InitEnvrnFlag st2 = InitEnvrnFlag st1
    /\ OneTimeFlag st2 = OneTimeFlag st1.
Proof.
  intros H.
  assert (F1 : InitEnvrnFlag st1 = false).
  { apply Init_Some in H. destruct H as [st0 [st' H]]. tauto. }
  rewrite (Init_later _ _ F1).
  destruct (for_each_seed_again env (range (TotSurfaces env)) st1) as [st2 [E K]].
  - intros i Hi.
    pose proof H as H'. apply Init_Some in H'.
    destruct H' as [st0 [st' [Hloop _]]].
    destruct (for_each_seed_reads_surfaces _ _ _ _ Hloop i Hi) as [s Hs].
    exists s. split; [exact Hs|]. intros HT.
    apply In_range in Hi.
    exact (Init_seeds env st st1 i s H Hi Hs HT).
  - exists st2. split; [exact E|]. split; [exact K|].
    destruct (for_each_seed_frame _ _ _ _ E) as [_ [_ [M [F O]]]].
    repeat split; assumption.
Qed.

Lemma InitMoistureBalanceEMPD_twice_sample :
  exists st1 st2,
    InitMoistureBalanceEMPD (Sample.environment true 0.008 0.0095) Sample.initial
    = Some st1
    /\ InitMoistureBalanceEMPD (Sample.environment true 0.008 0.0095) st1
       = Some st2
    /\ forall id, arrays st2 id = arrays st1 id.
Proof.
  destruct (Init_total (Sample.environment true 0.008 0.0095) Sample.initial
              eq_refl) as [st1 H].
  destruct (InitMoistureBalanceEMPD_twice _ _ _ H) as [st2 [H2 [K _]]].
  exists st1, st2. split; [exact H|]. split; [exact H2 | exact K].
Defined.

(** ** The input routine *)

Lemma In_interval (a b i : Z) : In i (interval a b) <-> a <= i <= b.
Proof.
  unfold interval. rewrite in_map_iff. split.
  - intros [k [<- Hk]]. apply in_seq in Hk. lia.
  - intros H. exists (Z.to_nat (i - a)). split; [lia|]. apply in_seq. lia.
Qed.

Lemma check_depths_consistent (material : MaterialProperties) :
  Input.depths_consistent (Input.check_depths material) = true.
Proof.
  unfold Input.depths_consistent, Input.check_depths.
  destruct ((EMPDDeepDepth material <=? EMPDSurfaceDepth material)%float
            && negb (EMPDDeepDepth material =? 0.0)%float) eqn:C.
  - simpl. rewrite andb_false_r. reflexivity.
  - rewrite C. reflexivity.
Qed.

Lemma Density_check_depths (material : MaterialProperties) :
  Density (Input.check_depths material) = Density material.
Proof.
  unfold Input.check_depths.
  destruct ((EMPDDeepDepth material <=? EMPDSurfaceDepth material)%float
            && negb (EMPDDeepDepth material =? 0.0)%float); reflexivity.
Qed.

(** One object: skipped with an error when its material is not found,
    stored otherwise. *)
Lemma load_object_cases (d : Input.InputData) (obj : Input.ObjectItem)
  (materials materials' : list MaterialProperties) (E E' : bool) :
  Input.load_object d obj materials E = Some (materials', E') ->
  (Input.MaterNum obj = 0 /\ materials' = materials /\ E' = true)
  \/ (Input.MaterNum obj <> 0
      /\ exists kind old,
           elem (Input.MaterialKinds d) (Input.MaterNum obj) = Some kind
           /\ elem materials (Input.MaterNum obj) = Some old
           /\ assign_elem materials (Input.MaterNum obj)
                (Input.check_depths
                   (Input.with_properties old (Input.MaterialProps obj)))
              = Some materials'
           /\ (E' = false ->
               E = false /\ Input.Group kind = Input.RegularMaterial d
               /\ ((0.0 <? Input.MaterialProps obj 1)%float = true ->
                   Input.ROnly kind = false))).
Proof.
  unfold Input.load_object. intros H.
  destruct (Z.eqb_spec (Input.MaterNum obj) 0) as [Hz|Hz].
  - left. inversion H. auto.
  - right. split; [exact Hz|].
    bind_inv H. rename a into kind. bind_inv H. rename a into old.
    bind_inv H. inversion H. subst. clear H.
    exists kind, old. repeat (split; [assumption|]).
    destruct (Z.eqb_spec (Input.Group kind) (Input.RegularMaterial d)) as [Hg|Hg];
      cbn [negb andb]; [|discriminate].
    destruct (0.0 <? Input.MaterialProps obj 1)%float; cbn [andb].
    + destruct (Input.ROnly kind); [discriminate|]. auto.
    + intros ->. repeat split; auto. discriminate.
Qed.

Lemma load_objects_accepts (d : Input.InputData) (objs : list Input.ObjectItem)
  (materials materials' : list MaterialProperties) (E : bool) :
  Input.load_objects d objs materials E = Some (materials', false) ->
  E = false /\ forall obj, In obj objs -> Input.accepted_object d obj.
Proof.
  revert materials E. induction objs as [|obj objs IH]; simpl; intros materials E H.
  - inversion H. split; [reflexivity|]. contradiction.
  - bind_inv H. destruct a as [m1 E1]. cbn [fst snd] in H.
    destruct (IH _ _ H) as [HE1 Hrest]. subst E1.
    apply load_object_cases in E0.
    destruct E0 as [[_ [_ Hbad]] | [Hz [kind [old [Hk [_ [_ Hok]]]]]]];
      [discriminate|].
    destruct (Hok eq_refl) as [HE [Hg Hr]].
    split; [exact HE|]. intros o [<-|Hin]; [|auto].
    split; [exact Hz|]. exists kind. auto.
Qed.

(** The table after the loop: same length, densities kept, the materials
    no object names kept whole. *)
Lemma load_objects_frame (d : Input.InputData) (objs : list Input.ObjectItem)
  (materials materials' : list MaterialProperties) (E E' : bool) :
  Input.load_objects d objs materials E = Some (materials', E') ->
  length materials' = length materials
  /\ (forall k, (forall obj, In obj objs -> Input.MaterNum obj <> k) ->
                elem materials' k = elem materials k)
  /\ (forall k m m', elem materials k = Some m -> elem materials' k = Some m' ->
                     Density m' = Density m).
Proof.
  revert materials E. induction objs as [|obj objs IH]; simpl; intros materials E H.
  - inversion H. subst. repeat split; auto. intros k m m' H1 H2. congruence.
  - bind_inv H. destruct a as [m1 E1]. cbn [fst snd] in H.
    destruct (IH _ _ H) as [Hlen [Hother Hdens]].
    apply load_object_cases in E0.
    destruct E0 as [[_ [-> _]] | [Hz [kind [old [_ [Hold [Hassign _]]]]]]].
    + repeat split; auto.
    + pose proof (assign_elem_Some _ _ _ _ Hassign) as [_ Hm1].
      split; [|split].
      * rewrite Hlen, Hm1, length_replace_nth. reflexivity.
      * intros k Hk. rewrite Hother by auto.
        eapply elem_assign_other; eauto.
        intros ->. apply (Hk obj); auto.
      * intros k m m' H1 H2.
        destruct (Z.eq_dec k (Input.MaterNum obj)) as [->|Hne].
        -- pose proof (elem_assign_same _ _ _ _ Hassign) as Hnew.
           rewrite (Hdens _ _ _ Hnew H2), Density_check_depths. simpl.
           congruence.
        -- apply (Hdens k m m'); [|exact H2].
           rewrite (elem_assign_other _ _ _ k _ Hassign Hne). exact H1.
Qed.

Lemma load_objects_keeps_consistent (d : Input.InputData)
  (objs : list Input.ObjectItem)
  (materials materials' : list MaterialProperties) (E E' : bool) (k : Z) :
  Input.load_objects d objs materials E = Some (materials', E') ->
  (exists m, elem materials k = Some m /\ Input.depths_consistent m = true) ->
  exists m, elem materials' k = Some m /\ Input.depths_consistent m = true.
Proof.
  revert materials E. induction objs as [|obj objs IH]; simpl; intros materials E H P.
  - inversion H. subst. exact P.
  - bind_inv H. destruct a as [m1 E1]. cbn [fst snd] in H.
    apply (IH _ _ H).
    apply load_object_cases in E0.
    destruct E0 as [[_ [-> _]] | [Hz [kind [old [_ [Hold [Hassign _]]]]]]];
      [exact P|].
    destruct (Z.eq_dec k (Input.MaterNum obj)) as [->|Hne].
    + eexists. split; [eapply elem_assign_same; eauto|].
      apply check_depths_consistent.
    + rewrite (elem_assign_other _ _ _ k _ Hassign Hne). exact P.
Qed.

Lemma load_objects_consistent (d : Input.InputData) (objs : list Input.ObjectItem)
  (materials materials' : list MaterialProperties) (E E' : bool) :
  Input.load_objects d objs materials E = Some (materials', E') ->
  forall obj, In obj objs -> Input.MaterNum obj <> 0 ->
    exists m, elem materials' (Input.MaterNum obj) = Some m
              /\ Input.depths_consistent m = true.
Proof.
  revert materials E. induction objs as [|o objs IH]; simpl;
    intros materials E H obj Hin Hz.
  - contradiction.
  - bind_inv H. destruct a as [m1 E1]. cbn [fst snd] in H.
    destruct Hin as [->|Hin]; [|eapply IH; eauto].
    apply (load_objects_keeps_consistent _ _ _ _ _ _ _ H).
    apply load_object_cases in E0.
    destruct E0 as [[Hbad _] | [_ [kind [old [_ [_ [Hassign _]]]]]]];
      [contradiction|].
    eexists. split; [eapply elem_assign_same; eauto|].
    apply check_depths_consistent.
Qed.


Lemma middle_layers_checked (d : Input.InputData) (construct : ConstructionData)
  (idx : list Z) (E : bool) :
  for_each_in idx
    (fun Layer ErrorsFound =>
       MatNum <- elem (LayerPoint construct) Layer ;;
       kind <- elem (Input.MaterialKinds d) MatNum ;;
       Some (if Input.EMPDMaterialProps kind then true else ErrorsFound)) E
  = Some false ->
  E = false
  /\ forall Layer, In Layer idx ->
       exists MatNum kind,
         elem (LayerPoint construct) Layer = Some MatNum
         /\ elem (Input.MaterialKinds d) MatNum = Some kind
         /\ Input.EMPDMaterialProps kind = false.
Proof.
  revert E. induction idx as [|i idx IH]; simpl; intros E H.
  - inversion H. split; [reflexivity|]. contradiction.
  - bind_inv H. bind_inv E0. rename a0 into MatNum.
    bind_inv E0. rename a0 into kind. inversion E0. subst a. clear E0.
    destruct (IH _ H) as [Hflag Hrest].
    destruct (Input.EMPDMaterialProps kind) eqn:Hp; [discriminate|].
    split; [exact Hflag|].
    intros Layer [<-|Hin]; [|auto]. exists MatNum, kind. auto.
Qed.

(** One surface of the loop: skipped, or checked. *)
Lemma check_surface_cases (env : Environment) (d : Input.InputData)
  (materials : list MaterialProperties) (SurfNum : Z)
  (zs zs' : list bool) (E E' : bool) :
  Input.check_surface env d materials SurfNum (zs, E) = Some (zs', E') ->
  (zs' = zs /\ E' = E
   /\ forall surface skind,
        ~ Input.checked_surface env d SurfNum surface skind)
  \/ exists surface skind construct MatNum material,
       Input.checked_surface env d SurfNum surface skind
       /\ elem (Construct env) (Construction surface) = Some construct
       /\ elem (LayerPoint construct) (TotLayers construct) = Some MatNum
       /\ elem materials MatNum = Some material
       /\ (zs' = zs
           \/ ((0.0 <? EMPDmu material)%float = true
               /\ assign_elem zs (Zone surface) true = Some zs'))
       /\ (E' = false ->
           E = false
           /\ (TotLayers construct <> 1 -> Input.layers_placed d skind construct)).
Proof.
  unfold Input.check_surface. cbn [fst snd]. intros H.
  bind_inv H. rename a into surface. bind_inv H. rename a into skind.
  destruct (HeatTransSurf surface) eqn:HT; cbn [negb orb] in H.
  2:{ left. inversion H. repeat split; auto.
      intros s k [Hs [_ [Hht _]]]. congruence. }
  destruct (Z.eqb_spec (Input.Class skind) (Input.SurfaceClass_Window d))
    as [Hc|Hc].
  { left. inversion H. repeat split; auto.
    intros s k [_ [Hk [_ [Hnw _]]]].
    assert (k = skind) by congruence. subst k. contradiction. }
  destruct (Z.eqb_spec (Input.HeatTransferAlgorithm skind)
              (Input.HeatTransferModel_EMPD d)) as [Ha|Ha]; cbn [negb] in H.
  2:{ left. inversion H. repeat split; auto.
      intros s k [_ [Hk [_ [_ Halg]]]].
      assert (k = skind) by congruence. subst k. contradiction. }
  right. bind_inv H. rename a into construct. bind_inv H. rename a into MatNum.
  bind_inv H. rename a into material. bind_inv H. rename a into zs1.
  exists surface, skind, construct, MatNum, material.
  split; [unfold Input.checked_surface; auto|].
  repeat (split; [assumption|]).
  assert (Hz : zs1 = zs
               \/ ((0.0 <? EMPDmu material)%float = true
                   /\ assign_elem zs (Zone surface) true = Some zs1)).
  { match goal with
    | Hx : (if _ then assign_elem _ _ _ else _) = Some _ |- _ =>
        destruct (0.0 <? EMPDmu material)%float; cbn [andb] in Hx;
        [destruct (0 <? Zone surface); [right; auto|left; congruence]
        |left; congruence]
    end. }
  destruct (Z.eqb_spec (TotLayers construct) 1) as [Hone|Hone].
  - inversion H. subst. split; [exact Hz|]. intros HE. split; [exact HE|].
    contradiction.
  - bind_inv H. rename a into outside. bind_inv H. rename a into okind.
    bind_inv H. inversion H. subst. clear H.
    split; [exact Hz|]. intros ->.
    match goal with
    | Hx : Input.check_middle_layers _ _ _ = Some false |- _ =>
        apply middle_layers_checked in Hx; destruct Hx as [HE Hmid]
    end.
    destruct (Input.EMPDMaterialProps okind && (Input.ExtBoundCond skind <=? 0))
      eqn:Hout; [discriminate|].
    split; [exact HE|]. intros _. split.
    + exists outside, okind. repeat (split; [assumption|]).
      intros Hp. rewrite Hp in Hout. cbn [andb] in Hout.
      apply Z.leb_gt in Hout. exact Hout.
    + intros Layer HL. apply Hmid. apply In_interval. exact HL.
Qed.

(** The loop over the surfaces: a flag that is up at its end was up at
    its start or was set for a surface of the loop; without an error at
    its end there was none at its start, and the layers of every checked
    surface with more than one layer are placed. *)
Lemma check_surfaces_loop (env : Environment) (d : Input.InputData)
  (materials : list MaterialProperties) (idx : list Z)
  (zs zs' : list bool) (E E' : bool) :
  for_each_in idx (Input.check_surface env d materials) (zs, E) = Some (zs', E') ->
  (forall z, elem zs' z = Some true ->
     elem zs z = Some true
     \/ exists SurfNum, In SurfNum idx /\ Input.flags_zone env d materials z SurfNum)
  /\ (E' = false ->
      E = false
      /\ forall SurfNum surface skind construct,
           In SurfNum idx ->
           Input.checked_surface env d SurfNum surface skind ->
           elem (Construct env) (Construction surface) = Some construct ->
           TotLayers construct <> 1 ->
           Input.layers_placed d skind construct).
Proof.
  revert zs E. induction idx as [|i idx IH]; simpl; intros zs E H.
  - inversion H. subst. split; [auto|]. intros HE. split; [exact HE|].
    contradiction.
  - bind_inv H. destruct a as [zs1 E1].
    destruct (IH _ _ H) as [Hflags Herr].
    apply check_surface_cases in E0.
    split.
    + intros z Hz. destruct (Hflags z Hz) as [Hz1|[S [HS Hf]]];
        [|right; exists S; auto].
      destruct E0 as [[-> _] | [surface [skind [construct [MatNum [material E0]]]]]];
        [left; exact Hz1|].
      destruct E0 as [Hck [Hc [Hm [Hmat [[->|[Hmu Hassign]] _]]]]];
        [left; exact Hz1|].
      destruct (Z.eq_dec z (Zone surface)) as [->|Hne].
      * right. exists i. split; [auto|].
        exists surface, skind, construct, MatNum, material.
        repeat (split; [assumption || reflexivity|]). assumption.
      * left. rewrite <- (elem_assign_other _ _ _ z _ Hassign Hne). exact Hz1.
    + intros HE'. destruct (Herr HE') as [HE1 Hrest]. subst E1.
      destruct E0 as [[_ [HE Hskip]]
                     | [surface [skind [construct [MatNum [material E0]]]]]].
      * split; [congruence|].
        intros S s k c [<-|Hin] Hck; [|eauto].
        exfalso. exact (Hskip _ _ Hck).
      * destruct E0 as [Hck [Hc [_ [_ [_ Hok]]]]].
        destruct (Hok eq_refl) as [HE Hplaced].
        split; [exact HE|].
        intros S s k c [<-|Hin] Hck' Hc' Hone; [|eauto].
        destruct Hck as [Hs [Hk _]]. destruct Hck' as [Hs' [Hk' _]].
        assert (s = surface) by congruence. subst s.
        assert (k = skind) by congruence. subst k.
        assert (c = construct) by congruence. subst c.
        exact (Hplaced Hone).
Qed.

Lemma check_zones_loop (zs : list bool) (idx : list Z) (E : bool) :
  for_each_in idx
    (fun Loop ErrorsFound =>
       flag <- elem zs Loop ;;
       Some (if negb flag then true else ErrorsFound)) E
  = Some false ->
  E = false /\ forall z, In z idx -> elem zs z = Some true.
Proof.
  revert E. induction idx as [|i idx IH]; simpl; intros E H.
  - inversion H. split; [reflexivity|]. contradiction.
  - bind_inv H. bind_inv E0. rename a0 into flag. inversion E0. subst a.
    destruct (IH _ H) as [Hflag Hrest].
    destruct flag; cbn [negb] in Hflag; [|discriminate].
    split; [exact Hflag|]. intros z [<-|Hin]; auto.
Qed.

Lemma elem_repeat {A : Type} (x y : A) (n : nat) (i : Z) :
  elem (repeat x n) i = Some y -> y = x.
Proof.
  unfold elem. destruct (1 <=? i); [|discriminate].
  intros H. apply nth_error_In in H. apply repeat_spec in H. exact H.
Qed.

(** What a return of the input routine means for its three loops. *)
Lemma GetMoistureBalanceEMPDInput_Some (env : Environment) (d : Input.InputData)
  (materials materials' : list MaterialProperties) :
  Input.GetMoistureBalanceEMPDInput env d materials = Some materials' ->
  Input.Objects d <> []
  /\ Input.load_objects d (Input.Objects d) materials false
     = Some (materials', false)
  /\ exists zs,
       for_each_in (range (TotSurfaces env))
         (Input.check_surface env d materials')
         (repeat false (Z.to_nat (Input.NumOfZones d)), false)
       = Some (zs, false)
       /\ forall z, 1 <= z <= Input.NumOfZones d -> elem zs z = Some true.
Proof.
  unfold Input.GetMoistureBalanceEMPDInput. intros H.
  bind_inv H. destruct a as [m Efinal]. cbn [fst snd] in H.
  destruct Efinal; [discriminate|]. inversion H. subst m. clear H.
  rename E into Hpass. unfold Input.input_pass in Hpass.
  bind_inv Hpass. destruct a as [m1 F1]. rename E into Hload.
  cbn [fst snd] in Hpass.
  bind_inv Hpass. destruct a as [zs F2]. rename E into Hsurf.
  cbn [fst snd] in Hpass.
  bind_inv Hpass. rename a into F3. rename E into Hzone.
  bind_inv Hpass. rename E into Hrep. inversion Hpass. subst. clear Hpass.
  unfold Input.check_zones in Hzone. apply check_zones_loop in Hzone.
  destruct Hzone as [-> Hzones].
  destruct (check_surfaces_loop _ _ _ _ _ _ _ _ Hsurf) as [_ Herr].
  destruct (Herr eq_refl) as [-> _].
  destruct (load_objects_accepts _ _ _ _ _ Hload) as [HE _].
  destruct (Input.Objects d) as [|o objs] eqn:Hobjs; [discriminate|].
  split; [discriminate|]. split; [exact Hload|].
  exists zs. split; [exact Hsurf|].
  intros z Hz. apply Hzones. apply In_range. exact Hz.
Qed.

Lemma StronglySorted_range (n : Z) : StronglySorted Z.lt (range n).
Proof.
  unfold range. generalize 1%nat as a.
  induction (Z.to_nat n) as [|k IH]; intros a; simpl; constructor.
  - apply IH.
  - apply Forall_forall. intros x Hx. apply in_map_iff in Hx.
    destruct Hx as [y [<- Hy]]. apply in_seq in Hy. lia.
Qed.

(** The loop of the report: what it appends to the lines written. *)
Lemma report_loop (env : Environment) (d : Input.InputData)
  (materials : list MaterialProperties) (idx : list Z) (written rows : list Z) :
  for_each_in idx
    (fun ConstrNum written =>
       window <- elem (Input.TypeIsWindow d) ConstrNum ;;
       if window then Some written
       else
         construct <- elem (Construct env) ConstrNum ;;
         MatNum <- elem (LayerPoint construct) (TotLayers construct) ;;
         kind <- elem (Input.MaterialKinds d) MatNum ;;
         _ <- elem materials MatNum ;;
         Some (if Input.EMPDMaterialProps kind then written ++ [ConstrNum]
               else written))
    written
  = Some rows ->
  exists added,
    rows = written ++ added
    /\ (forall c, In c added <-> In c idx /\ Input.reported env d c)
    /\ (StronglySorted Z.lt idx -> StronglySorted Z.lt added).
Proof.
  revert written. induction idx as [|i idx IH]; simpl; intros written H.
  - inversion H. subst. exists []. rewrite app_nil_r.
    split; [reflexivity|]. split; [|constructor].
    intros c. simpl. tauto.
  - bind_inv H. rename a into written1. rename E into Hbody.
    destruct (IH _ H) as [added [-> [Hin Hsorted]]]. clear IH H.
    bind_inv Hbody. rename a into window. rename E into Hw.
    assert (Hlater : StronglySorted Z.lt (i :: idx) ->
                     StronglySorted Z.lt added
                     /\ Forall (Z.lt i) added).
    { intros Hs. inversion Hs as [|x l Hs' Hall]. subst. split; [auto|].
      apply Forall_forall. intros c Hc. apply Hin in Hc.
      rewrite Forall_forall in Hall. apply Hall. tauto. }
    destruct window.
    + inversion Hbody. subst written1. clear Hbody.
      exists added. split; [reflexivity|]. split; [|intros Hs; apply Hlater, Hs].
      intros c. rewrite Hin. split; [tauto|].
      intros [[<-|Hc] Hr]; [|tauto].
      destruct Hr as [Hr _]. congruence.
    + bind_inv Hbody. rename a into construct. rename E into Hc.
      bind_inv Hbody. rename a into MatNum. rename E into Hm.
      bind_inv Hbody. rename a into kind. rename E into Hk.
      bind_inv Hbody. inversion Hbody. subst written1. clear Hbody.
      destruct (Input.EMPDMaterialProps kind) eqn:Hp.
      * exists (i :: added). rewrite <- app_assoc. split; [reflexivity|].
        split.
        -- intros c. simpl. rewrite Hin. split; [|tauto].
           intros [<-|Hc']; [|tauto].
           split; [auto|]. split; [exact Hw|].
           exists construct, MatNum, kind. auto.
        -- intros Hs. destruct (Hlater Hs). constructor; assumption.
      * exists added. split; [reflexivity|].
        split; [|intros Hs; apply Hlater, Hs].
        intros c. rewrite Hin. split; [tauto|].
        intros [[<-|Hc'] Hr]; [|tauto].
        destruct Hr as [_ [c' [M' [k' [Hc' [Hm' [Hk' Hp']]]]]]].
        assert (c' = construct) by congruence. subst c'.
        assert (M' = MatNum) by congruence. subst M'.
        assert (k' = kind) by congruence. subst k'. congruence.
Qed.

(** The first call of the initialisation runs the input routine of the
    environment on the material table it finds. *)
Lemma Init_first_use_input (env : Environment) (st st' : State) :
  InitEnvrnFlag st = true ->
  InitMoistureBalanceEMPD env st = Some st' ->
  GetMoistureBalanceEMPDInput env (Material st) = Some (Material st').
Proof.
  intros Hf H. rewrite (Init_first_use _ _ Hf) in H.
  bind_inv H. bind_inv H. inversion H. subst st'. simpl. assumption.
Qed.

(** ** The input routine, statement by statement *)

(** A return of [GetMoistureBalanceEMPDInput] (lines 149 to 181 and 262
    to 264): there is at least one object, and every object names a
    material of the table that is a regular material and, where the
    object gives a positive vapor resistance factor, is not defined by
    its resistance only. Otherwise the routine ends the program. *)
Theorem GetMoistureBalanceEMPDInput_accepts_valid_objects_only
  (env : Environment) (d : Input.InputData)
  (materials materials' : list MaterialProperties) :
  Input.GetMoistureBalanceEMPDInput env d materials = Some materials' ->
  Input.Objects d <> []
  /\ forall obj, In obj (Input.Objects d) -> Input.accepted_object d obj.
Proof.
  intros H. apply GetMoistureBalanceEMPDInput_Some in H.
  destruct H as [Hne [Hload _]]. split; [exact Hne|].
  apply (load_objects_accepts _ _ _ _ _ Hload).
Qed.

Lemma GetMoistureBalanceEMPDInput_accepts_valid_objects_only_sample :
  Input.sample_objects <> []
  /\ forall obj, In obj Input.sample_objects ->
       Input.accepted_object (Input.sample Input.sample_objects) obj.
Proof.
  apply (GetMoistureBalanceEMPDInput_accepts_valid_objects_only
           (Sample.environment true 0.008 0.0095)
           (Input.sample Input.sample_objects) Input.bare Sample.materials).
  vm_compute. reflexivity.
Defined.

(** After a return of [GetMoistureBalanceEMPDInput] (lines 202 to 207)
    the material of every object has a deep-layer depth that is zero or
    above its surface-layer depth. *)
Theorem GetMoistureBalanceEMPDInput_deep_depths
  (env : Environment) (d : Input.InputData)
  (materials materials' : list MaterialProperties) :
  Input.GetMoistureBalanceEMPDInput env d materials = Some materials' ->
  forall obj, In obj (Input.Objects d) ->
    exists material,
      elem materials' (Input.MaterNum obj) = Some material
      /\ ((EMPDDeepDepth material =? 0.0)%float = true
          \/ (EMPDDeepDepth material <=? EMPDSurfaceDepth material)%float = false).
Proof.
  intros H obj Hin. apply GetMoistureBalanceEMPDInput_Some in H.
  destruct H as [_ [Hload _]].
  destruct (load_objects_accepts _ _ _ _ _ Hload) as [_ Hacc].
  destruct (Hacc obj Hin) as [Hz _].
  destruct (load_objects_consistent _ _ _ _ _ _ Hload obj Hin Hz)
    as [material [Hm Hc]].
  exists material. split; [exact Hm|].
  unfold Input.depths_consistent in Hc.
  destruct (EMPDDeepDepth material =? 0.0)%float; [left; reflexivity|].
  right. destruct (EMPDDeepDepth material <=? EMPDSurfaceDepth material)%float;
    [discriminate|reflexivity].
Qed.

Lemma GetMoistureBalanceEMPDInput_deep_depths_sample :
  exists material,
    elem [Sample.gypsum; Sample.inert; Sample.inert] 1 = Some material
    /\ ((EMPDDeepDepth material =? 0.0)%float = true
        \/ (EMPDDeepDepth material <=? EMPDSurfaceDepth material)%float = false).
Proof.
  refine (GetMoistureBalanceEMPDInput_deep_depths
            (Sample.environment true 0.008 0.0095)
            (Input.sample Input.shallow_objects) Input.bare
            [Sample.gypsum; Sample.inert; Sample.inert]
            _
            {| Input.MaterNum := 1;
               Input.MaterialProps :=
                 Input.props_of
                   [200; 0.02; 1.5; 0.01; 3; 0.005; 0.002; 0; 0]%float |}
            _).
  - vm_compute. reflexivity.
  - left. reflexivity.
Defined.



(** A return of [GetMoistureBalanceEMPDInput] (lines 159 to 208) keeps
    the number of materials, every material no object names, and the
    density of every material. *)
Theorem GetMoistureBalanceEMPDInput_keeps_other_materials
  (env : Environment) (d : Input.InputData)
  (materials materials' : list MaterialProperties) :
  Input.GetMoistureBalanceEMPDInput env d materials = Some materials' ->
  length materials' = length materials
  /\ (forall k, (forall obj, In obj (Input.Objects d) -> Input.MaterNum obj <> k) ->
                elem materials' k = elem materials k)
  /\ (forall k m m', elem materials k = Some m -> elem materials' k = Some m' ->
                     Density m' = Density m).
Proof.
  intros H. apply GetMoistureBalanceEMPDInput_Some in H.
  destruct H as [_ [Hload _]].
  exact (load_objects_frame _ _ _ _ _ _ Hload).
Qed.

Lemma GetMoistureBalanceEMPDInput_keeps_other_materials_sample :
  length Sample.materials = length Input.bare
  /\ (forall k, (forall obj, In obj Input.sample_objects -> Input.MaterNum obj <> k) ->
                elem Sample.materials k = elem Input.bare k)
  /\ (forall k m m', elem Input.bare k = Some m -> elem Sample.materials k = Some m' ->
                     Density m' = Density m).
Proof.
  apply (GetMoistureBalanceEMPDInput_keeps_other_materials
           (Sample.environment true 0.008 0.0095)
           (Input.sample Input.sample_objects) Input.bare Sample.materials).
  vm_compute. reflexivity.
Defined.

(** After a return of [GetMoistureBalanceEMPDInput] (lines 210 to 256)
    every zone has a surface that transfers heat, is no window, uses the
    EMPD algorithm and whose inside-layer material has, in the table the
    routine leaves, a positive vapor resistance factor. *)
Theorem GetMoistureBalanceEMPDInput_covers_every_zone
  (env : Environment) (d : Input.InputData)
  (materials materials' : list MaterialProperties) :
  Input.GetMoistureBalanceEMPDInput env d materials = Some materials' ->
  forall z, 1 <= z <= Input.NumOfZones d ->
    exists SurfNum,
      1 <= SurfNum <= TotSurfaces env
      /\ Input.flags_zone env d materials' z SurfNum.
Proof.
  intros H z Hz. apply GetMoistureBalanceEMPDInput_Some in H.
  destruct H as [_ [_ [zs [Hloop Hzones]]]].
  destruct (check_surfaces_loop _ _ _ _ _ _ _ _ Hloop) as [Hflags _].
  destruct (Hflags z (Hzones z Hz)) as [Hinit|[SurfNum [Hin Hf]]].
  - apply elem_repeat in Hinit. discriminate.
  - exists SurfNum. split; [apply In_range; exact Hin|exact Hf].
Qed.

Lemma GetMoistureBalanceEMPDInput_covers_every_zone_sample :
  exists SurfNum,
    1 <= SurfNum <= 4
    /\ Input.flags_zone (Sample.environment true 0.008 0.0095)
         (Input.sample Input.sample_objects) Sample.materials 1 SurfNum.
Proof.
  refine (GetMoistureBalanceEMPDInput_covers_every_zone
            (Sample.environment true 0.008 0.0095)
            (Input.sample Input.sample_objects) Input.bare Sample.materials
            _ 1 _).
  - vm_compute. reflexivity.
  - simpl. lia.
Defined.

(** After a return of [GetMoistureBalanceEMPDInput] (lines 229 to 246),
    on every surface the loop checks whose construction has more than
    one layer, the outside layer carries moisture properties only if
    [ExtBoundCond] is positive, and no middle layer carries any. *)
Theorem GetMoistureBalanceEMPDInput_layers_placed
  (env : Environment) (d : Input.InputData)
  (materials materials' : list MaterialProperties) :
  Input.GetMoistureBalanceEMPDInput env d materials = Some materials' ->
  forall SurfNum surface skind construct,
    1 <= SurfNum <= TotSurfaces env ->
    Input.checked_surface env d SurfNum surface skind ->
    elem (Construct env) (Construction surface) = Some construct ->
    TotLayers construct <> 1 ->
    Input.layers_placed d skind construct.
Proof.
  intros H SurfNum surface skind construct HS Hck Hc Hone.
  apply GetMoistureBalanceEMPDInput_Some in H.
  destruct H as [_ [_ [zs [Hloop _]]]].
  destruct (check_surfaces_loop _ _ _ _ _ _ _ _ Hloop) as [_ Herr].
  destruct (Herr eq_refl) as [_ Hplaced].
  apply (Hplaced SurfNum surface skind construct); auto.
  apply In_range. exact HS.
Qed.

Lemma GetMoistureBalanceEMPDInput_layers_placed_sample :
  Input.layers_placed (Input.sample Input.sample_objects)
    {| Input.Class := 1; Input.HeatTransferAlgorithm := 5;
       Input.ExtBoundCond := 0 |}
    {| TotLayers := 3; LayerPoint := [2; 2; 1] |}.
Proof.
  refine (GetMoistureBalanceEMPDInput_layers_placed
            (Input.layered (Sample.environment true 0.008 0.0095))
            (Input.sample Input.sample_objects) Input.bare Sample.materials
            _ 1
            {| HeatTransSurf := true; Zone := 1; Construction := 1 |}
            _ _ _ _ _ _).
  - vm_compute. reflexivity.
  - simpl. lia.
  - unfold Input.checked_surface. simpl.
    repeat (split; [reflexivity|]). split; [discriminate|reflexivity].
  - reflexivity.
  - simpl. discriminate.
Defined.

(** [ReportMoistureBalanceEMPD] (lines 668 to 683) writes no line when
    the report is not asked for; otherwise it writes, in increasing
    order and once each, the constructions from 1 to [TotConstructs]
    that are no window and whose inside-layer material carries moisture
    properties. *)
Theorem ReportMoistureBalanceEMPD_rows
  (env : Environment) (d : Input.InputData)
  (materials : list MaterialProperties) (rows : list Z) :
  Input.ReportMoistureBalanceEMPD env d materials = Some rows ->
  (forall c, In c rows <->
             Input.DoReport d = true
             /\ 1 <= c <= Input.TotConstructs d
             /\ Input.reported env d c)
  /\ StronglySorted Z.lt rows.
Proof.
  unfold Input.ReportMoistureBalanceEMPD. intros H.
  destruct (Input.DoReport d); cbn [negb] in H.
  - apply report_loop in H. destruct H as [added [-> [Hin Hsorted]]].
    simpl. split; [|apply Hsorted, StronglySorted_range].
    intros c. rewrite Hin, In_range. tauto.
  - inversion H. subst. split; [|constructor].
    intros c. simpl. split; [contradiction|]. intros [Hf _]. discriminate.
Qed.

Lemma ReportMoistureBalanceEMPD_rows_sample :
  (forall c, In c [1; 3] <->
             true = true
             /\ 1 <= c <= 3
             /\ Input.reported (Input.layered (Sample.environment true 0.008 0.0095))
                  (Input.sample Input.sample_objects) c)
  /\ StronglySorted Z.lt [1; 3].
Proof.
  apply (ReportMoistureBalanceEMPD_rows
           (Input.layered (Sample.environment true 0.008 0.0095))
           (Input.sample Input.sample_objects) Sample.materials [1; 3]).
  vm_compute. reflexivity.
Defined.

(** The first call of [InitMoistureBalanceEMPD] (line 358) leaves in
    [Material] what [GetMoistureBalanceEMPDInput] makes of the table the
    call finds. *)
Theorem InitMoistureBalanceEMPD_loads_input
  (env : Environment) (d : Input.InputData) (st st' : State) :
  InitEnvrnFlag st = true ->
  InitMoistureBalanceEMPD (Input.with_input env d) st = Some st' ->
  Input.GetMoistureBalanceEMPDInput env d (Material st) = Some (Material st').
Proof.
  intros Hf H. exact (Init_first_use_input _ _ _ Hf H).
Qed.

Lemma InitMoistureBalanceEMPD_loads_input_sample :
  exists st',
    InitMoistureBalanceEMPD
      (Input.with_input (Sample.environment true 0.008 0.0095)
         (Input.sample Input.shallow_objects))
      (with_Material Sample.initial Input.bare)
    = Some st'
    /\ Input.GetMoistureBalanceEMPDInput (Sample.environment true 0.008 0.0095)
         (Input.sample Input.shallow_objects) Input.bare
       = Some (Material st')
    /\ Material st' = [Sample.gypsum; Sample.inert; Sample.inert].
Proof.
  destruct (InitMoistureBalanceEMPD
              (Input.with_input (Sample.environment true 0.008 0.0095)
                 (Input.sample Input.shallow_objects))
              (with_Material Sample.initial Input.bare)) as [st'|] eqn:E;
    [|vm_compute in E; discriminate].
  exists st'. split; [reflexivity|]. split.
  - exact (InitMoistureBalanceEMPD_loads_input
             (Sample.environment true 0.008 0.0095)
             (Input.sample Input.shallow_objects)
             (with_Material Sample.initial Input.bare) st' eq_refl E).
  - vm_compute in E. inversion E. reflexivity.
Defined.

(** Without an object of moisture properties (lines 153 to 156 and 262
    to 264) the first call of [InitMoistureBalanceEMPD] does not return:
    the input routine ends the program. *)
Theorem InitMoistureBalanceEMPD_without_objects
  (env : Environment) (d : Input.InputData) (st : State) :
  Input.Objects d = [] ->
  InitEnvrnFlag st = true ->
  InitMoistureBalanceEMPD (Input.with_input env d) st = None.
Proof.
  intros Hobjs Hf.
  destruct (InitMoistureBalanceEMPD (Input.with_input env d) st) as [st'|] eqn:E;
    [|reflexivity].
  apply (Init_first_use_input _ _ _ Hf) in E.
  change (Input.GetMoistureBalanceEMPDInput env d (Material st)
          = Some (Material st')) in E.
  apply GetMoistureBalanceEMPDInput_Some in E. destruct E as [Hne _].
  contradiction.
Qed.

Lemma InitMoistureBalanceEMPD_without_objects_sample :
  InitMoistureBalanceEMPD
    (Input.with_input (Sample.environment true 0.008 0.0095) (Input.sample []))
    Sample.initial
  = None.
Proof.
  exact (InitMoistureBalanceEMPD_without_objects
           (Sample.environment true 0.008 0.0095) (Input.sample [])
           Sample.initial eq_refl eq_refl).
Defined.

(** ** After CloseMoistureBalanceEMPD *)

Lemma bind_references_unallocated (env : Environment) (st : State) (SurfNum : Z) :
  arrays st RVSurface = None -> bind_references env st SurfNum = None.
Proof.
  intros H. unfold bind_references.
  destruct (elem (Surface env) SurfNum); cbn [bind]; [|reflexivity].
  unfold get at 1. rewrite H. reflexivity.
Qed.

Lemma reset_coupling_keeps_unallocated (env : Environment) (st0 st : State)
  (id : ArrayId) :
  InitEnvrnFlag st0 = false ->
  reset_coupling env st0 = Some st ->
  arrays st0 id = None -> arrays st id = None.
Proof.
  intros F H Hid. apply reset_coupling_cases in H.
  destruct H as [[_ ->] | [_ [_ [st1 [HI ->]]]]].
  - destruct (negb (BeginEnvrnFlag env)); exact Hid.
  - rewrite (Init_later _ _ F) in HI.
    pose proof (size_for_each_seed _ _ _ _ HI id) as Hs.
    rewrite Hid in Hs. simpl in *.
    destruct (arrays st1 id); [discriminate|reflexivity].
Qed.

(** Once the module has been initialised, a call of
    [CalcMoistureBalanceEMPD] or of [UpdateMoistureBalanceEMPD] after
    [CloseMoistureBalanceEMPD] (lines 579 to 585) has no result: it comes
    to an element of a deallocated array, if it does not fail before.
    The arrays are allocated under [InitEnvrnFlag] only (lines 304 to
    320), which the first initialisation cleared. *)
Theorem no_call_after_CloseMoistureBalanceEMPD (X : Externals)
  (env : Environment) (SurfNum : Z) (TempSurfIn TempZone TempSat0 : float)
  (st : State) :
  InitEnvrnFlag st = false ->
  CalcMoistureBalanceEMPD X env SurfNum TempSurfIn TempZone TempSat0
    (CloseMoistureBalanceEMPD st) = None
  /\ UpdateMoistureBalanceEMPD SurfNum (CloseMoistureBalanceEMPD st) = None.
Proof.
  intros F. split; [|reflexivity].
  unfold CalcMoistureBalanceEMPD.
  destruct (reset_coupling env (CloseMoistureBalanceEMPD st)) as [st1|] eqn:R;
    cbn [bind]; [|reflexivity].
  unfold CalcBody.
  rewrite (bind_references_unallocated env st1 SurfNum); [reflexivity|].
  apply (reset_coupling_keeps_unallocated env (CloseMoistureBalanceEMPD st));
    [exact F|exact R|reflexivity].
Qed.

Lemma no_call_after_CloseMoistureBalanceEMPD_sample :
  CalcMoistureBalanceEMPD Sample.externals (Sample.environment true 0.008 0.0095)
    1 20 20 0 (CloseMoistureBalanceEMPD (Sample.uniform 0.01 true)) = None
  /\ UpdateMoistureBalanceEMPD 1 (CloseMoistureBalanceEMPD (Sample.uniform 0.01 true))
     = None.
Proof.
  exact (no_call_after_CloseMoistureBalanceEMPD Sample.externals
           (Sample.environment true 0.008 0.0095) 1 20 20 0
           (Sample.uniform 0.01 true) eq_refl).
Defined.

End MoistureBalanceEMPDManager.
